(** * bee-js: the [Bee] class, feed entry points and retrievability

    A shallow embedding of the [Bee] class of bee-js (the class that starts
    at [export class Bee] in the source) together with the properties of its
    feed, chunk and connection entry points.

    JavaScript values are modelled by what the class observes of them:
    - a [T | Uint8Array | string] parameter is the tagged variant [Arg T];
    - a thrown value is a [JsError]: its class (for [instanceof]), its
      message and [e?.response?.status];
    - a synchronous call ends in a [Completion] (returned or thrown);
    - an [async] method is an [Async] value: the calls it made on the I/O
      modules, in order, and the settlement of its promise.

    The functions the class imports from other files of the repository
    ([makeTopic], [makeEthAddress], [chunk.upload], ...) are the fields of a
    [World] record: the class is modelled once, for every behaviour of its
    collaborators. *)

From Stdlib Require Import List String Ascii Strings.Byte ZArith NArith Bool Lia.
From Stdlib Require Import DecimalString.
Import ListNotations.

Local Open Scope string_scope.
Local Open Scope N_scope.

(* ================================================================== *)
(** ** JavaScript values, errors and completions *)

Definition Uint8Array := list byte.

(** [T | Uint8Array | string]: the shape of the owner, topic and signer
    parameters of the public methods. *)
Inductive Arg (T : Type) : Type :=
| Canon (v : T)
| U8 (b : Uint8Array)
| Str (s : string).

Arguments Canon {T} v.
Arguments U8 {T} b.
Arguments Str {T} s.

(** JavaScript truthiness of such a parameter: objects (a [Uint8Array], a
    signer, a canonical value) are truthy, a string is truthy unless empty. *)
Definition truthyArg {T} (a : Arg T) : bool :=
  match a with
  | Canon _ => true
  | U8 _ => true
  | Str s => negb (String.eqb s EmptyString)
  end.

Definition truthyOpt {T} (o : option (Arg T)) : bool :=
  match o with
  | Some a => truthyArg a
  | None => false
  end.

(** [Index | number | IndexBytes | string]. *)
Inductive IndexArg : Type :=
| IndexNumber (n : N)
| IndexBytes (b : Uint8Array)
| IndexString (s : string).

(** [!index] is true for [undefined], for the number 0 and for the empty
    string; a [Uint8Array] and a non-empty string are truthy. *)
Definition truthyIndex (i : IndexArg) : bool :=
  match i with
  | IndexNumber n => negb (n =? 0)
  | IndexBytes _ => true
  | IndexString s => negb (String.eqb s EmptyString)
  end.

Inductive ErrorClass : Type :=
| TypeErrorClass
| BeeErrorClass
| BeeArgumentErrorClass   (* extends BeeError *)
| ResponseErrorClass      (* an error of the HTTP layer *)
| OtherErrorClass.

Record JsError : Type := mkError {
  errClass : ErrorClass;
  errMessage : string;
  responseStatus : option Z   (* e?.response?.status *)
}.

Definition TypeError (msg : string) : JsError := mkError TypeErrorClass msg None.
Definition BeeError (msg : string) : JsError := mkError BeeErrorClass msg None.
Definition BeeArgumentError (msg : string) : JsError :=
  mkError BeeArgumentErrorClass msg None.

(** [e instanceof BeeError] *)
Definition instanceofBeeError (e : JsError) : bool :=
  match errClass e with
  | BeeErrorClass | BeeArgumentErrorClass => true
  | _ => false
  end.

(** [e?.response?.status === 404] *)
Definition status404 (e : JsError) : bool :=
  match responseStatus e with
  | Some s => Z.eqb s 404
  | None => false
  end.

Inductive Completion (A : Type) : Type :=
| Return (a : A)
| Throw (e : JsError).

Arguments Return {A} a.
Arguments Throw {A} e.

Definition bindC {A B} (c : Completion A) (k : A -> Completion B) : Completion B :=
  match c with
  | Return a => k a
  | Throw e => Throw e
  end.

Definition tryCatchC {A} (c : Completion A) (h : JsError -> Completion A)
  : Completion A :=
  match c with
  | Return a => Return a
  | Throw e => h e
  end.

(** One call that leaves the class for the network. *)
Inductive Call : Type :=
| Fetch (index : N)           (* a lookup of one feed update chunk *)
| Request (endpoint : string). (* any other request of an I/O module *)

(** An [async] method: the calls made, in order, and how the promise settles
    ([Return]: resolved, [Throw]: rejected). *)
Definition Async (A : Type) : Type := (list Call * Completion A)%type.

Definition calls {A} (m : Async A) : list Call := fst m.
Definition settled {A} (m : Async A) : Completion A := snd m.

Definition resolve {A} (a : A) : Async A := ([], Return a).
Definition reject {A} (e : JsError) : Async A := ([], Throw e).
Definition sync {A} (c : Completion A) : Async A := ([], c).

Definition bindA {A B} (m : Async A) (k : A -> Async B) : Async B :=
  match m with
  | (l, Return a) => let (l', r) := k a in ((l ++ l')%list, r)
  | (l, Throw e) => (l, Throw e)
  end.

Definition tryCatchA {A} (m : Async A) (h : JsError -> Async A) : Async A :=
  match m with
  | (l, Return a) => (l, Return a)
  | (l, Throw e) => let (l', r) := h e in ((l ++ l')%list, r)
  end.

Declare Scope js_scope.
Delimit Scope js_scope with js.
Notation "'let*' x ':=' c 'in' k" := (bindC c (fun x => k))
  (at level 10, x name, c at level 100, k at level 200) : js_scope.
Notation "'await' x ':=' m 'in' k" := (bindA m (fun x => k))
  (at level 10, x name, m at level 100, k at level 200) : js_scope.
Local Open Scope js_scope.

(* ================================================================== *)
(** ** The types of [./types] the class handles *)

Inductive FeedType : Type := sequence | epoch.

Definition isSequence (t : FeedType) : bool :=
  match t with sequence => true | epoch => false end.

(** Modelled from the spec: the canonical values of [./types] and
    [./utils/eth], whose declarations are not part of this file.  Section 3:
    a Topic is a fixed 32-byte value, an OwnerIdentity a 20-byte value; an
    address crossing a text boundary is rendered as lowercase hex. *)
Definition Topic := Uint8Array.
Definition EthAddress := Uint8Array.
Definition HexEthAddress := string.

Definition Reference := string.
Definition BatchId := string.
Definition AnyJson := string.
Definition Identifier := Uint8Array.

Record Signer : Type := mkSigner {
  signerAddress : EthAddress;
  signerKey : Uint8Array
}.

Inductive Timeout : Type :=
| TimeoutOff              (* false *)
| TimeoutMs (ms : Z).

Record BeeRequestOptions : Type := mkRequestOptions {
  baseURL : option string;
  timeout : option Timeout;
  headers : option (list (string * string));
  onRequest : option string;   (* the hook, named *)
  adapter : option string      (* the adapter, named *)
}.

Record BeeOptions : Type := mkBeeOptions {
  optSigner : option (Arg Signer);
  optTimeout : option Timeout;
  optHeaders : option (list (string * string));
  optOnRequest : option string;
  optAdapter : option string
}.

Record UploadOptions : Type := mkUploadOptions {
  pin : option bool;
  encrypt : option bool;
  tag : option N;
  deferred : option bool
}.

(** [JsonFeedOptions extends BeeRequestOptions] *)
Record JsonFeedOptions : Type := mkJsonFeedOptions {
  jsonRequest : BeeRequestOptions;
  jsonAddress : option (Arg EthAddress);
  jsonSigner : option (Arg Signer);
  jsonType : option FeedType
}.

Record FeedUpdate : Type := mkFeedUpdate {
  updatePayload : Uint8Array;
  feedIndex : N
}.

Record FeedReader : Type := mkFeedReader {
  readerType : FeedType;
  readerOwner : HexEthAddress;
  readerTopic : Topic;
  download : Async FeedUpdate
}.

Record FeedWriter : Type := mkFeedWriter {
  writerReader : FeedReader;
  writerSigner : Signer;
  upload : BatchId -> Reference -> Async Reference
}.

Record SOCReader : Type := mkSOCReader {
  socOwner : HexEthAddress;
  socDownload : Identifier -> Async Uint8Array
}.

Record SOCWriter : Type := mkSOCWriter {
  socReader : SOCReader;
  socUpload : BatchId -> Identifier -> Uint8Array -> option UploadOptions ->
              Async Reference
}.

(** [addCidConversionFunction({ reference }, ReferenceType.FEED)] *)
Inductive ReferenceType : Type := MANIFEST | FEED.


Record Bee : Type := mkBee {
  url : string;
  signer : option Signer;
  requestOptions : BeeRequestOptions
}.

(* ================================================================== *)
(** ** The collaborators of the class

    Every function the class imports from another file of the repository, or
    from a library, is a field here, under the name the class calls it by
    (a module prefix joined with an underscore: [chunk.upload] is
    [chunk_upload]; the [makeFeedReader], [makeFeedWriter] and
    [createFeedManifest] of [./feed] and [./modules/feed], which the class
    shadows with methods of the same name, carry the prefix [feed_]). *)

Record World : Type := mkWorld {
  (* ./types *)
  CHUNK_SIZE : N;
  (* ./feed/type *)
  DEFAULT_FEED_TYPE : FeedType;
  assertFeedType : FeedType -> Completion unit;
  (* ./utils/url *)
  assertBeeUrl : string -> Completion unit;
  (* ./utils/type *)
  assertRequestOptions : option BeeRequestOptions -> string -> Completion unit;
  assertBatchId : BatchId -> Completion unit;
  assertUploadOptions : UploadOptions -> Completion unit;
  (* ./chunk/signer *)
  makeSigner : Arg Signer -> Completion Signer;
  (* ./feed/topic *)
  makeTopic : Arg Topic -> Completion Topic;
  makeTopicFromString : string -> Topic;
  (* ./utils/eth *)
  makeEthAddress : Arg EthAddress -> Completion EthAddress;
  makeHexEthAddress : Arg EthAddress -> Completion HexEthAddress;
  (* cafe-utility *)
  deepMerge2 : BeeRequestOptions -> BeeRequestOptions -> BeeRequestOptions;
  (* ./modules/chunk, ./modules/status, ./modules/feed *)
  chunk_upload : BeeRequestOptions -> Uint8Array -> BatchId ->
                 option UploadOptions -> Async Reference;
  status_checkConnection : BeeRequestOptions -> Async unit;
  feed_createFeedManifest : BeeRequestOptions -> HexEthAddress -> Topic ->
                            BatchId -> FeedType -> Async Reference;
  (* ./feed *)
  feed_makeFeedReader : BeeRequestOptions -> FeedType -> Topic ->
                        HexEthAddress -> FeedReader;
  feed_makeFeedWriter : BeeRequestOptions -> FeedType -> Topic -> Signer ->
                        FeedWriter;
  (* ./feed/retrievable *)
  areAllSequentialFeedsUpdateRetrievable :
    Bee -> EthAddress -> Topic -> IndexArg -> BeeRequestOptions -> Async bool;
  (* ./feed/json *)
  getJsonData : Bee -> FeedReader -> Async AnyJson;
  setJsonData : Bee -> FeedWriter -> BatchId -> AnyJson ->
                option JsonFeedOptions -> option BeeRequestOptions ->
                Async Reference;
  (* ./chunk/soc *)
  downloadSingleOwnerChunk : BeeRequestOptions -> EthAddress -> Identifier ->
                             Async Uint8Array;
  uploadSingleOwnerChunkData : BeeRequestOptions -> Signer -> BatchId ->
                               Identifier -> Uint8Array ->
                               option UploadOptions -> Async Reference
}.

(** Modelled from the spec: [SPAN_SIZE] of [./types], which is not part of
    this file.  Section 6: the span is an 8-byte length prefix. *)
Definition SPAN_SIZE : N := 8.

(** Modelled from the spec: [stripLastSlash] of [./utils/url], which is not
    part of this file.  The constructor's comment: "Remove last slash if
    present": one trailing ['/'] is dropped, any other string is returned as
    it is. *)
Fixpoint stripLastSlash (url : string) : string :=
  match url with
  | EmptyString => EmptyString
  | String c rest =>
      match rest with
      | EmptyString => if Ascii.eqb c "/" then EmptyString else url
      | String _ _ => String c (stripLastSlash rest)
      end
  end.

(** The string ends with ['/']: joined with an endpoint path that starts
    with ['/'], it gives a double slash. *)
Fixpoint endsWithSlash (s : string) : bool :=
  match s with
  | EmptyString => false
  | String c rest =>
      match rest with
      | EmptyString => Ascii.eqb c "/"
      | String _ _ => endsWithSlash rest
      end
  end.

(** A word between double quotes, as in the message of an error. *)
Definition quoted (s : string) : string :=
  String (ascii_of_nat 34) (s ++ String (ascii_of_nat 34) EmptyString).

(** [`${n}`] for a number. *)
Definition numberToString (n : N) : string :=
  NilEmpty.string_of_uint (N.to_uint n).

Definition byteLength (data : Uint8Array) : N := N.of_nat (List.length data).

(* ================================================================== *)
(** ** The class [Bee] *)

Section BeeClass.

Variable W : World.

(** [constructor(url: string, options?: BeeOptions)] *)
Definition constructor (url0 : string) (options : option BeeOptions)
  : Completion Bee :=
  let* _ := assertBeeUrl W url0 in
  let thisUrl := stripLastSlash url0 in
  let* thisSigner :=
    match options with
    | Some o =>
        match optSigner o with
        | Some s =>
            if truthyArg s
            then let* made := makeSigner W s in Return (Some made)
            else Return None
        | None => Return None
        end
    | None => Return None
    end in
  Return {|
    url := thisUrl;
    signer := thisSigner;
    requestOptions := {|
      baseURL := Some thisUrl;
      timeout :=
        match options with
        | Some o =>
            match optTimeout o with
            | Some t => Some t
            | None => Some TimeoutOff      (* ?? false *)
            end
        | None => Some TimeoutOff
        end;
      headers := match options with Some o => optHeaders o | None => None end;
      onRequest :=
        match options with Some o => optOnRequest o | None => None end;
      adapter := match options with Some o => optAdapter o | None => None end
    |}
  |}.

(** [private getRequestOptionsForCall(options?)] *)
Definition getRequestOptionsForCall (this : Bee)
  (options : option BeeRequestOptions) : BeeRequestOptions :=
  match options with
  | Some o => deepMerge2 W (requestOptions this) o
  | None => requestOptions this
  end.

(** The tail of [resolveSigner]: the default signer of the instance, or
    the error. *)
Definition defaultSigner (this : Bee) : Completion Signer :=
  match signer this with
  | Some d => Return d
  | None =>
      Throw (BeeError "You have to pass Signer as property to either the method call or constructor! Non found.")
  end.

(** [private resolveSigner(signer?)] *)
Definition resolveSigner (this : Bee) (signer0 : option (Arg Signer))
  : Completion Signer :=
  match signer0 with
  | Some s => if truthyArg s then makeSigner W s else defaultSigner this
  | None => defaultSigner this
  end.

(** [async uploadChunk(postageBatchId, data, options?, requestOptions?)].
    [data] has the type [Uint8Array], so the [instanceof] test passes. *)
Definition uploadChunk (this : Bee) (postageBatchId : BatchId)
  (data : Uint8Array) (options : option UploadOptions)
  (requestOptions0 : option BeeRequestOptions) : Async Reference :=
  await _ := sync (assertBatchId W postageBatchId) in
  if byteLength data <? SPAN_SIZE then
    reject (BeeArgumentError
              ("Chunk has to have size of at least " ++
               numberToString SPAN_SIZE ++ "."))
  else if CHUNK_SIZE W + SPAN_SIZE <? byteLength data then
    reject (BeeArgumentError
              ("Chunk has to have size of at most " ++
               numberToString (CHUNK_SIZE W) ++ "."))
  else
    await _ := sync (match options with
                     | Some o => assertUploadOptions W o
                     | None => Return tt
                     end) in
    chunk_upload W (getRequestOptionsForCall this requestOptions0) data
      postageBatchId options.

(** [makeFeedReader(type, topic, owner, options?)] *)
Definition makeFeedReader (this : Bee) (type : FeedType)
  (topic : Arg Topic) (owner : Arg EthAddress)
  (options : option BeeRequestOptions) : Completion FeedReader :=
  let* _ := assertRequestOptions W options "RequestOptions" in
  let* _ := assertFeedType W type in
  let* canonicalTopic := makeTopic W topic in
  let* canonicalOwner := makeHexEthAddress W owner in
  Return (feed_makeFeedReader W (getRequestOptionsForCall this options) type
            canonicalTopic canonicalOwner).

(** [makeFeedWriter(type, topic, signer?, options?)] *)
Definition makeFeedWriter (this : Bee) (type : FeedType)
  (topic : Arg Topic) (signer0 : option (Arg Signer))
  (options : option BeeRequestOptions) : Completion FeedWriter :=
  let* _ := assertRequestOptions W options "RequestOptions" in
  let* _ := assertFeedType W type in
  let* canonicalTopic := makeTopic W topic in
  let* canonicalSigner := resolveSigner this signer0 in
  Return (feed_makeFeedWriter W (getRequestOptionsForCall this options) type
            canonicalTopic canonicalSigner).


(** The branch of [isFeedRetrievable] taken when [!index]: the [try]
    around the download of the latest update, and its [catch]. *)
Definition latestIsRetrievable (this : Bee) (type : FeedType)
  (canonicalTopic : Topic) (canonicalOwner : EthAddress) : Async bool :=
  tryCatchA
    (await reader :=
       sync (makeFeedReader this type (Canon canonicalTopic)
               (Canon canonicalOwner) None) in
     await _ := download reader in
     resolve true)
    (fun e => if status404 e then resolve false else reject e).

(** [async isFeedRetrievable(type, owner, topic, index?, options?)] *)
Definition isFeedRetrievable (this : Bee) (type : FeedType)
  (owner : Arg EthAddress) (topic : Arg Topic) (index : option IndexArg)
  (options : option BeeRequestOptions) : Async bool :=
  await canonicalOwner := sync (makeEthAddress W owner) in
  await canonicalTopic := sync (makeTopic W topic) in
  match index with
  | None => latestIsRetrievable this type canonicalTopic canonicalOwner
  | Some i =>
      if negb (truthyIndex i) then
        latestIsRetrievable this type canonicalTopic canonicalOwner
      else if negb (isSequence type) then
        reject (BeeError "Only Sequence type of Feeds is supported at the moment")
      else
        areAllSequentialFeedsUpdateRetrievable W this canonicalOwner
          canonicalTopic i (getRequestOptionsForCall this options)
  end.

(** [makeFeedTopic(topic: string)] *)
Definition makeFeedTopic (topic : string) : Topic :=
  makeTopicFromString W topic.

(** [options?.type ?? DEFAULT_FEED_TYPE] *)
Definition feedTypeOf (options : option JsonFeedOptions) : FeedType :=
  match options with
  | Some o =>
      match jsonType o with
      | Some t => t
      | None => DEFAULT_FEED_TYPE W
      end
  | None => DEFAULT_FEED_TYPE W
  end.

Definition signerOf (options : option JsonFeedOptions)
  : option (Arg Signer) :=
  match options with Some o => jsonSigner o | None => None end.

Definition addressOf (options : option JsonFeedOptions)
  : option (Arg EthAddress) :=
  match options with Some o => jsonAddress o | None => None end.

(** [async setJsonFeed(postageBatchId, topic, data, options?, requestOptions?)] *)
Definition setJsonFeed (this : Bee) (postageBatchId : BatchId)
  (topic : string) (data : AnyJson) (options : option JsonFeedOptions)
  (requestOptions0 : option BeeRequestOptions) : Async Reference :=
  await _ := sync (assertRequestOptions W (option_map jsonRequest options)
                     "JsonFeedOptions") in
  await _ := sync (assertBatchId W postageBatchId) in
  let hashedTopic := makeFeedTopic topic in
  let feedType := feedTypeOf options in
  await writer := sync (makeFeedWriter this feedType (Canon hashedTopic)
                          (signerOf options) requestOptions0) in
  setJsonData W this writer postageBatchId data options requestOptions0.

(** The [else] branch of [getJsonFeed]: the address of the resolved
    signer, a [BeeError] of [resolveSigner] being replaced by the
    method's own. *)
Definition resolvedSignerAddress (this : Bee)
  (options : option JsonFeedOptions) : Completion EthAddress :=
  tryCatchC
    (let* s := resolveSigner this (signerOf options) in
     Return (signerAddress s))
    (fun e =>
       if instanceofBeeError e
       then Throw (BeeError "Either address, signer or default signer has to be specified!")
       else Throw e).

(** The owner address [getJsonFeed] reads from: the part of the method
    between the computation of the feed type and the making of the
    reader. *)
Definition jsonFeedAddress (this : Bee) (options : option JsonFeedOptions)
  : Completion EthAddress :=
  if truthyOpt (signerOf options) && truthyOpt (addressOf options) then
    Throw (BeeError ("Both options " ++ quoted "signer" ++ " and " ++
                     quoted "address" ++
                     " can not be specified at one time!"))
  else
    match addressOf options with
    | Some a =>
        if truthyArg a then makeEthAddress W a
        else resolvedSignerAddress this options
    | None => resolvedSignerAddress this options
    end.

(** [async getJsonFeed(topic, options?)] *)
Definition getJsonFeed (this : Bee) (topic : string)
  (options : option JsonFeedOptions) : Async AnyJson :=
  await _ := sync (assertRequestOptions W (option_map jsonRequest options)
                     "JsonFeedOptions") in
  let hashedTopic := makeFeedTopic topic in
  let feedType := feedTypeOf options in
  await address := sync (jsonFeedAddress this options) in
  await reader := sync (makeFeedReader this feedType (Canon hashedTopic)
                          (Canon address) (option_map jsonRequest options)) in
  getJsonData W this reader.

(** [makeSOCReader(ownerAddress, options?)] *)
Definition makeSOCReader (this : Bee) (ownerAddress : Arg EthAddress)
  (options : option BeeRequestOptions) : Completion SOCReader :=
  let* _ := assertRequestOptions W options "RequestOptions" in
  let* canonicalOwner := makeEthAddress W ownerAddress in
  let* hexOwner := makeHexEthAddress W (Canon canonicalOwner) in
  Return {|
    socOwner := hexOwner;
    socDownload :=
      downloadSingleOwnerChunk W (getRequestOptionsForCall this options)
        canonicalOwner
  |}.

(** [makeSOCWriter(signer?, options?)] *)
Definition makeSOCWriter (this : Bee) (signer0 : option (Arg Signer))
  (options : option BeeRequestOptions) : Completion SOCWriter :=
  let* _ := assertRequestOptions W options "RequestOptions" in
  let* canonicalSigner := resolveSigner this signer0 in
  let* reader := makeSOCReader this (Canon (signerAddress canonicalSigner))
                   options in
  Return {|
    socReader := reader;
    socUpload :=
      uploadSingleOwnerChunkData W (getRequestOptionsForCall this options)
        canonicalSigner
  |}.

(** [async checkConnection(options?)] *)
Definition checkConnection (this : Bee)
  (options : option BeeRequestOptions) : Async unit :=
  await _ := sync (assertRequestOptions W options "PostageBatchOptions") in
  status_checkConnection W (getRequestOptionsForCall this options).

(** [async isConnected(options?)]: the assertion stands before the [try];
    the [return true] after the [try] is reached exactly when the awaited
    check resolved. *)
Definition isConnected (this : Bee) (options : option BeeRequestOptions)
  : Async bool :=
  await _ := sync (assertRequestOptions W options "PostageBatchOptions") in
  tryCatchA
    (await _ :=
       status_checkConnection W (getRequestOptionsForCall this options) in
     resolve true)
    (fun _ => resolve false).

End BeeClass.

(* ================================================================== *)
(** ** The feed reader and the retrievability verifier of the spec

    [./feed] and [./feed/retrievable] are not part of this file; the class
    reaches them through [feed_makeFeedReader] and
    [areAllSequentialFeedsUpdateRetrievable].  What the spec says of them is
    modelled here over one feed: the updates of one (owner, topic) pair,
    looked up by sequence index. *)

(** Modelled from the spec: the outcome of [fetch] at the address derived
    from (owner, topic, index).  Section 6: [fetch] gives the bytes or a
    distinguished NotFound; section 7: a transport failure of the store is
    passed through, and a chunk that decodes but fails authentication counts
    as missing. *)
Inductive FetchOutcome : Type :=
| Found (authentic : bool) (payload : Uint8Array)
| NotFound
| TransportFailure (e : JsError).

Definition Feed := N -> FetchOutcome.

(** The index resolves and authenticates. *)
Definition resolves (feed : Feed) (i : N) : bool :=
  match feed i with
  | Found true _ => true
  | _ => false
  end.

(** Modelled from the spec: [readAt] (section 4.5) as a probe: one [fetch],
    the payload of an authentic chunk, a miss for an absent or invalid one,
    the store's own error otherwise. *)
Definition probe (feed : Feed) (i : N) : Async (option Uint8Array) :=
  ([Fetch i],
   match feed i with
   | Found true payload => Return (Some payload)
   | Found false _ => Return None
   | NotFound => Return None
   | TransportFailure e => Throw e
   end).

(** Modelled from the spec: the absence miss of section 7, which reaches
    the class as the store's NotFound outcome, HTTP 404. *)
Definition FeedNotFound : JsError :=
  mkError ResponseErrorClass "FeedNotFound" (Some 404%Z).

(** Modelled from the spec: the chain check of section 4.6, the body of
    [areAllSequentialFeedsUpdateRetrievable]: the indices from [i] on, one
    after the other, [false] at the first one that is missing or invalid. *)
Fixpoint chainFrom (feed : Feed) (i : N) (count : nat) : Async bool :=
  match count with
  | O => resolve true
  | S k =>
      await r := probe feed i in
      match r with
      | Some _ => chainFrom feed (N.succ i) k
      | None => resolve false
      end
  end.

Definition chainCheck (feed : Feed) (targetIndex : N) : Async bool :=
  chainFrom feed 0 (S (N.to_nat targetIndex)).

(** Modelled from the spec: the exponential search of [readLatest]
    (section 4.5): probe 1, 2, 4, 8, ... until a miss; [best] is the last
    index that resolved, with its payload.  A sequence index has 64 bits, so
    64 doublings reach the end of the index space. *)
Fixpoint expSearch (feed : Feed) (best : N * Uint8Array) (p : N) (fuel : nat)
  : Async ((N * Uint8Array) * N) :=
  match fuel with
  | O => resolve (best, p)
  | S k =>
      await r := probe feed p in
      match r with
      | Some payload => expSearch feed (p, payload) (2 * p) k
      | None => resolve (best, p)
      end
  end.

(** Modelled from the spec: the binary search of [readLatest] in the
    bracket between the last index that resolved and the first miss. *)
Fixpoint binSearch (feed : Feed) (best : N * Uint8Array) (hi : N) (fuel : nat)
  : Async (N * Uint8Array) :=
  match fuel with
  | O => resolve best
  | S k =>
      if hi - fst best <=? 1 then resolve best
      else
        let mid := (fst best + hi) / 2 in
        await r := probe feed mid in
        match r with
        | Some payload => binSearch feed (mid, payload) hi k
        | None => binSearch feed best mid k
        end
  end.

Definition INDEX_BITS : nat := 64.

(** Modelled from the spec: [readLatest] of a Sequence feed (section 4.5),
    the [download] of the reader [./feed] makes: FeedNotFound if even index
    0 is absent, else the highest index found by the two searches. *)
Definition readLatest (feed : Feed) : Async FeedUpdate :=
  await first := probe feed 0 in
  match first with
  | None => reject FeedNotFound
  | Some payload0 =>
      await bracket := expSearch feed (0, payload0) 1 INDEX_BITS in
      await latest := binSearch feed (fst bracket) (snd bracket) INDEX_BITS in
      resolve {| updatePayload := snd latest; feedIndex := fst latest |}
  end.

(** The payload an index resolves to, if it does. *)
Definition payloadAt (feed : Feed) (i : N) : option Uint8Array :=
  match feed i with
  | Found true payload => Some payload
  | _ => None
  end.

(** The indices [i, i+1, ...], [count] of them. *)
Fixpoint indicesFrom (i : N) (count : nat) : list N :=
  match count with
  | O => []
  | S k => i :: indicesFrom (N.succ i) k
  end.

(** A Sequence feed whose updates exist exactly at the indices [0..n]. *)
Definition existsExactlyUpTo (feed : Feed) (n : N) : Prop :=
  (forall i, i <= n -> exists payload, feed i = Found true payload) /\
  (forall i, n < i -> feed i = NotFound).

(** No lookup of the feed ends in a transport failure. *)
Definition noTransportFailure (feed : Feed) : Prop :=
  forall i e, feed i <> TransportFailure e.

(** The reader and the verifier of [./feed] that the class reaches for the
    owner [a] and the topic [t] are the spec's, over the feed [feed]. *)
Definition specFeed (W : World) (this : Bee) (a : EthAddress) (t : Topic)
  (options : option BeeRequestOptions) (feed : Feed) : Prop :=
  (exists r,
      makeFeedReader W this sequence (Canon t) (Canon a) None = Return r /\
      download r = readLatest feed) /\
  (forall n,
      areAllSequentialFeedsUpdateRetrievable W this a t (IndexNumber n)
        (getRequestOptionsForCall W this options) = chainCheck feed n).

(* ================================================================== *)
(** ** A concrete world

    One instance of [World] on which the class runs: the canonicalisers
    follow the data model of the spec, the feed reader and the verifier are
    the spec's, over a feed given as a parameter, and every request module
    records its request. *)

Definition hexValue (c : ascii) : option N :=
  let n := N_of_ascii c in
  if (48 <=? n) && (n <=? 57) then Some (n - 48)
  else if (97 <=? n) && (n <=? 102) then Some (n - 87)
  else if (65 <=? n) && (n <=? 70) then Some (n - 55)
  else None.

Fixpoint hexToBytes (s : string) : option Uint8Array :=
  match s with
  | EmptyString => Some []
  | String _ EmptyString => None
  | String a (String b rest) =>
      match hexValue a, hexValue b, hexToBytes rest with
      | Some x, Some y, Some bs =>
          match Byte.of_N (16 * x + y) with
          | Some v => Some (v :: bs)
          | None => None
          end
      | _, _, _ => None
      end
  end.

Definition hexChar (n : N) : ascii :=
  ascii_of_N (if n <? 10 then 48 + n else 87 + n).

Definition bytesToHex (b : Uint8Array) : string :=
  fold_right
    (fun v acc =>
       let n := Byte.to_N v in
       String (hexChar (n / 16)) (String (hexChar (n mod 16)) acc))
    EmptyString b.

(** A hex string may carry the prefix [0x]. *)
Definition stripHexPrefix (s : string) : string :=
  match s with
  | String a (String b rest) =>
      if Ascii.eqb a "0" && Ascii.eqb b "x" then rest else s
  | _ => s
  end.

(** Modelled from the spec: the canonicalisation of section 4.1 for a value
    of fixed width [width]: bytes are taken as they are, a hex string is
    decoded, and anything of another length fails (InvalidLength). *)
Definition fixedWidth (width : nat) (what : string) (a : Arg Uint8Array)
  : Completion Uint8Array :=
  let checked (b : Uint8Array) :=
    if Nat.eqb (List.length b) width then Return b
    else Throw (TypeError ("invalid length of " ++ what)) in
  match a with
  | Canon v => checked v
  | U8 b => checked b
  | Str s =>
      match hexToBytes (stripHexPrefix s) with
      | Some b => checked b
      | None => Throw (TypeError ("invalid hex string for " ++ what))
      end
  end.

Definition worldMakeTopic : Arg Topic -> Completion Topic :=
  fixedWidth 32 "topic".

Definition worldMakeEthAddress : Arg EthAddress -> Completion EthAddress :=
  fixedWidth 20 "EthAddress".

Definition worldMakeHexEthAddress (a : Arg EthAddress)
  : Completion HexEthAddress :=
  let* b := worldMakeEthAddress a in Return (bytesToHex b).

(** A stand-in for the hash of a topic string: the bytes of the string,
    cut or padded with zeros to 32. *)
Definition worldTopicFromString (s : string) : Topic :=
  firstn 32 (list_byte_of_string s ++ repeat x00 32).

(** A stand-in for the key derivation: a signer made from a 32-byte key has
    the first 20 bytes of the key as its address. *)
Definition worldMakeSigner (a : Arg Signer) : Completion Signer :=
  match a with
  | Canon s => Return s
  | U8 b =>
      let* key := fixedWidth 32 "private key" (U8 b) in
      Return {| signerAddress := firstn 20 key; signerKey := key |}
  | Str s =>
      let* key := fixedWidth 32 "private key" (Str s) in
      Return {| signerAddress := firstn 20 key; signerKey := key |}
  end.

Definition worldAssertRequestOptions (o : option BeeRequestOptions)
  (name : string) : Completion unit :=
  match o with
  | Some options =>
      match timeout options with
      | Some (TimeoutMs ms) =>
          if (ms <? 0)%Z
          then Throw (BeeArgumentError
                        (name ++ ".timeout has to be a non-negative integer!"))
          else Return tt
      | _ => Return tt
      end
  | None => Return tt
  end.

Definition worldAssertBeeUrl (u : string) : Completion unit :=
  if String.prefix "http://" u || String.prefix "https://" u
  then Return tt
  else Throw (BeeArgumentError "URL is not valid!").

Definition worldAssertBatchId (b : BatchId) : Completion unit :=
  if Nat.eqb (String.length b) 64 then Return tt
  else Throw (TypeError "BatchId not valid hex string of length 64").

Definition orElse {A} (over base : option A) : option A :=
  match over with
  | Some v => Some v
  | None => base
  end.

Definition worldDeepMerge2 (base over : BeeRequestOptions)
  : BeeRequestOptions := {|
  baseURL := orElse (baseURL over) (baseURL base);
  timeout := orElse (timeout over) (timeout base);
  headers := orElse (headers over) (headers base);
  onRequest := orElse (onRequest over) (onRequest base);
  adapter := orElse (adapter over) (adapter base)
|}.

Definition request {A} (endpoint : string) (a : A) : Async A :=
  ([Request endpoint], Return a).

Definition worldReader (feed : Feed) (_ : BeeRequestOptions)
  (type : FeedType) (topic : Topic) (owner : HexEthAddress) : FeedReader := {|
  readerType := type;
  readerOwner := owner;
  readerTopic := topic;
  download :=
    match type with
    | sequence => readLatest feed
    | epoch => ([Request "GET /feeds"], Throw FeedNotFound)
    end
|}.

(** Section 4.1: a sequence index is a 64-bit counter, big-endian. *)
Definition readUint64BigEndian (b : Uint8Array) : N :=
  fold_left (fun acc v => 256 * acc + Byte.to_N v) b 0.

Definition worldNumericIndex (index : IndexArg) : Completion N :=
  match index with
  | IndexNumber n => Return n
  | IndexBytes b => Return (readUint64BigEndian b)
  | IndexString s =>
      match NilEmpty.uint_of_string s with
      | Some d => Return (N.of_uint d)
      | None => Throw (TypeError "Unknown type of index!")
      end
  end.

Definition worldRetrievable (feed : Feed) (_ : Bee) (_ : EthAddress)
  (_ : Topic) (index : IndexArg) (_ : BeeRequestOptions) : Async bool :=
  await n := sync (worldNumericIndex index) in
  chainCheck feed n.

Definition world (feed : Feed) : World := {|
  CHUNK_SIZE := 4096;
  DEFAULT_FEED_TYPE := sequence;
  assertFeedType := fun _ => Return tt;
  assertBeeUrl := worldAssertBeeUrl;
  assertRequestOptions := worldAssertRequestOptions;
  assertBatchId := worldAssertBatchId;
  assertUploadOptions := fun _ => Return tt;
  makeSigner := worldMakeSigner;
  makeTopic := worldMakeTopic;
  makeTopicFromString := worldTopicFromString;
  makeEthAddress := worldMakeEthAddress;
  makeHexEthAddress := worldMakeHexEthAddress;
  deepMerge2 := worldDeepMerge2;
  chunk_upload := fun _ data _ _ => request "POST /chunks" (bytesToHex data);
  status_checkConnection := fun _ => request "GET /" tt;
  feed_createFeedManifest :=
    fun _ owner topic _ _ => request "POST /feeds" (owner ++ bytesToHex topic);
  feed_makeFeedReader := worldReader feed;
  feed_makeFeedWriter :=
    fun ro type topic s => {|
      writerReader :=
        worldReader feed ro type topic (bytesToHex (signerAddress s));
      writerSigner := s;
      upload := fun _ reference => request "POST /soc" reference
    |};
  areAllSequentialFeedsUpdateRetrievable := worldRetrievable feed;
  getJsonData :=
    fun _ reader =>
      await update := download reader in
      request "GET /bytes" (bytesToHex (updatePayload update));
  setJsonData := fun _ writer batch data _ _ => upload writer batch data;
  downloadSingleOwnerChunk := fun _ _ identifier => request "GET /chunks" identifier;
  uploadSingleOwnerChunkData :=
    fun _ _ _ identifier _ _ => request "POST /soc" (bytesToHex identifier)
|}.

(** The feeds of the examples: updates at the indices 0 to 4, and the same
    feed with the update at index 2 missing. *)
Definition feedUpTo4 : Feed :=
  fun i => if i <=? 4 then Found true [x2a] else NotFound.

Definition feedWithGapAt2 : Feed :=
  fun i => if i =? 2 then NotFound else feedUpTo4 i.

Definition emptyFeed : Feed := fun _ => NotFound.

Definition noOptions : BeeRequestOptions := {|
  baseURL := None; timeout := None; headers := None;
  onRequest := None; adapter := None
|}.

Definition negativeTimeout : BeeRequestOptions := {|
  baseURL := None; timeout := Some (TimeoutMs (-1)); headers := None;
  onRequest := None; adapter := None
|}.

Definition exampleSigner : Signer :=
  {| signerAddress := repeat x11 20; signerKey := repeat x22 32 |}.

(** [new Bee('http://localhost:1633')] and the same with a default signer. *)
Definition exampleBee : Bee := {|
  url := "http://localhost:1633";
  signer := None;
  requestOptions := {|
    baseURL := Some "http://localhost:1633"; timeout := Some TimeoutOff;
    headers := None; onRequest := None; adapter := None
  |}
|}.

Definition exampleBeeWithSigner : Bee := {|
  url := url exampleBee;
  signer := Some exampleSigner;
  requestOptions := requestOptions exampleBee
|}.

Definition exampleOwner : EthAddress := repeat xab 20.
Definition exampleTopic : Topic := repeat x00 32.

Definition hexOwner : string := "ABababABababABababABababABababABababABab".

Definition exampleBatchId : BatchId :=
  "0000000000000000000000000000000000000000000000000000000000000000".

(* ================================================================== *)
(** ** The request module [bytes] and the data methods of the class

    The first file of the source: [upload], [download] and
    [downloadReadable], each one request through [http].  A JavaScript
    object with string values (the headers of a request or of a response) is
    a list of properties in insertion order. *)

Definition JsObject := list (string * string).

(** [o[k]] *)
Fixpoint getProperty (k : string) (o : JsObject) : option string :=
  match o with
  | [] => None
  | (k', v) :: rest => if String.eqb k k' then Some v else getProperty k rest
  end.

(** [o[k] = v]: an own property keeps its place, a new one goes last. *)
Fixpoint setProperty (k v : string) (o : JsObject) : JsObject :=
  match o with
  | [] => [(k, v)]
  | (k', v') :: rest =>
      if String.eqb k k' then (k, v) :: rest
      else (k', v') :: setProperty k v rest
  end.

(** [{ ...base, ...over }]: the properties of [over] are assigned, in
    order, onto a copy of [base]. *)
Definition spread (base over : JsObject) : JsObject :=
  fold_left (fun acc kv => setProperty (fst kv) (snd kv) acc) over base.

(** [string | Uint8Array], the data of an upload. *)
Inductive DataArg : Type :=
| DataString (s : string)
| DataBytes (b : Uint8Array).

(** The configuration [http] is called with. *)
Record RequestConfig : Type := mkRequestConfig {
  configUrl : string;
  configMethod : option string;
  configResponseType : string;
  configData : option DataArg;
  configHeaders : option JsObject
}.

Record Response (T : Type) : Type := mkResponse {
  responseData : T;
  responseHeaders : JsObject
}.

Arguments mkResponse {T} _ _.
Arguments responseData {T} _.
Arguments responseHeaders {T} _.

(** [number | Tag | string], what [makeTagUid] accepts. *)
Inductive TagArg : Type :=
| TagNumber (n : N)
| TagObject (uid : N)
| TagString (s : string).

Record UploadResult : Type := mkUploadResult {
  reference : Reference;
  tagUid : option N
}.

Definition Data := Uint8Array.
Definition ReadableStream := list Uint8Array.

(** [FileUploadOptions extends UploadOptions] *)
Record FileUploadOptions : Type := mkFileUploadOptions {
  fileUpload : UploadOptions;
  size : option N;
  contentType : option string
}.

(** A [File] of the browser. *)
Record JsFile : Type := mkJsFile {
  fileName : string;
  fileType : string
}.

(** [string | Uint8Array | Readable | File], the data of [uploadFile]. *)
Inductive FileArg : Type :=
| FileString (s : string)
| FileBytes (b : Uint8Array)
| FileReadable (stream : ReadableStream)
| FileOfBrowser (f : JsFile).

(** [string | Uint8Array | Readable | ArrayBuffer], what [bzz.uploadFile]
    is given. *)
Inductive FilePayload : Type :=
| PayloadString (s : string)
| PayloadBytes (b : Uint8Array)
| PayloadReadable (stream : ReadableStream).

Record UploadResultWithCid : Type := mkUploadResultWithCid {
  uploaded : UploadResult;
  uploadedCid : ReferenceType
}.

(** The collaborators of the two modules and of the methods below that
    [World] does not list, under the names the source calls them by. *)
Record Api : Type := mkApi {
  (* ../utils/http, at the three types of response the file asks for *)
  http_reference : BeeRequestOptions -> RequestConfig ->
                   Async (Response Reference);
  http_arraybuffer : BeeRequestOptions -> RequestConfig ->
                     Async (Response Uint8Array);
  http_stream : BeeRequestOptions -> RequestConfig ->
                Async (Response ReadableStream);
  (* ../utils/headers, ../utils/bytes *)
  extractUploadHeaders : BatchId -> option UploadOptions -> JsObject;
  wrapBytesWithHelpers : Uint8Array -> Data;
  (* ./utils/type *)
  makeTagUid : TagArg -> Completion N;
  assertData : DataArg -> Completion unit;
  assertReference : string -> Completion unit;
  assertReferenceOrEns : string -> Completion unit;
  assertFileData : FileArg -> Completion unit;
  assertFileUploadOptions : FileUploadOptions -> Completion unit;
  (* ./utils/file *)
  fileArrayBuffer : JsFile -> Async Uint8Array;
  (* ./modules/bzz, ./modules/tag *)
  bzz_uploadFile : BeeRequestOptions -> FilePayload -> BatchId ->
                   option string -> option FileUploadOptions ->
                   Async UploadResult;
  tag_updateTag : BeeRequestOptions -> N -> Reference -> Async unit
}.

(** [addCidConversionFunction(result, type)] *)
Definition addCidConversionFunction (result : UploadResult)
  (type : ReferenceType) : UploadResultWithCid :=
  {| uploaded := result; uploadedCid := type |}.

(** A string is truthy unless empty; a number is truthy unless 0. *)
Definition truthyString (s : string) : bool := negb (String.eqb s EmptyString).

Definition truthyNumber (n : option N) : bool :=
  match n with
  | Some v => negb (v =? 0)
  | None => false
  end.

Section BytesModule.

Variable A : Api.

Definition endpoint : string := "bytes".

(** The configuration of the request of [upload], the second argument of
    its call of [http] *)
Definition uploadConfig (data : DataArg) (postageBatchId : BatchId)
  (options : option UploadOptions) : RequestConfig := {|
  configUrl := endpoint;
  configMethod := Some "post";
  configResponseType := "json";
  configData := Some data;
  configHeaders :=
    Some (spread [("content-type", "application/octet-stream")]
            (extractUploadHeaders A postageBatchId options))
|}.

(** [response.headers['swarm-tag'] ? makeTagUid(...) : undefined] *)
Definition tagUidOf (responseHeaders0 : JsObject) : Completion (option N) :=
  match getProperty "swarm-tag" responseHeaders0 with
  | Some header =>
      if truthyString header
      then let* made := makeTagUid A (TagString header) in Return (Some made)
      else Return None
  | None => Return None
  end.

(** [export async function upload(requestOptions, data, postageBatchId,
    options?)] *)
Definition bytes_upload (requestOptions0 : BeeRequestOptions)
  (data : DataArg) (postageBatchId : BatchId)
  (options : option UploadOptions) : Async UploadResult :=
  await response :=
    http_reference A requestOptions0
      (uploadConfig data postageBatchId options) in
  await uid := sync (tagUidOf (responseHeaders response)) in
  resolve {| reference := responseData response; tagUid := uid |}.

(** [export async function download(requestOptions, hash)] *)
Definition bytes_download (requestOptions0 : BeeRequestOptions)
  (hash : string) : Async Data :=
  await response :=
    http_arraybuffer A requestOptions0 {|
      configUrl := endpoint ++ "/" ++ hash;
      configMethod := None;
      configResponseType := "arraybuffer";
      configData := None;
      configHeaders := None
    |} in
  resolve (wrapBytesWithHelpers A (responseData response)).

(** [export async function downloadReadable(requestOptions, hash)] *)
Definition bytes_downloadReadable (requestOptions0 : BeeRequestOptions)
  (hash : string) : Async ReadableStream :=
  await response :=
    http_stream A requestOptions0 {|
      configUrl := endpoint ++ "/" ++ hash;
      configMethod := None;
      configResponseType := "stream";
      configData := None;
      configHeaders := None
    |} in
  resolve (responseData response).

Variable W : World.

(** [async uploadData(postageBatchId, data, options?, requestOptions?)] *)
Definition uploadData (this : Bee) (postageBatchId : BatchId)
  (data : DataArg) (options : option UploadOptions)
  (requestOptions0 : option BeeRequestOptions) : Async UploadResult :=
  await _ := sync (assertBatchId W postageBatchId) in
  await _ := sync (assertData A data) in
  await _ := sync (match options with
                   | Some o => assertUploadOptions W o
                   | None => Return tt
                   end) in
  bytes_upload (getRequestOptionsForCall W this requestOptions0) data
    postageBatchId options.

(** [async downloadData(reference, options?)] *)
Definition downloadData (this : Bee) (reference0 : string)
  (options : option BeeRequestOptions) : Async Data :=
  await _ := sync (assertRequestOptions W options "RequestOptions") in
  await _ := sync (assertReferenceOrEns A reference0) in
  bytes_download (getRequestOptionsForCall W this options) reference0.

(** [async downloadReadableData(reference, options?)] *)
Definition downloadReadableData (this : Bee) (reference0 : string)
  (options : option BeeRequestOptions) : Async ReadableStream :=
  await _ := sync (assertRequestOptions W options "RequestOptions") in
  await _ := sync (assertReferenceOrEns A reference0) in
  bytes_downloadReadable (getRequestOptionsForCall W this options) reference0.

(** [async updateTag(tagUid, reference, options?)] *)
Definition updateTag (this : Bee) (tagUid0 : TagArg) (reference0 : string)
  (options : option BeeRequestOptions) : Async unit :=
  await _ := sync (assertReference A reference0) in
  await _ := sync (assertRequestOptions W options "RequestOptions") in
  await uid := sync (makeTagUid A tagUid0) in
  tag_updateTag A (getRequestOptionsForCall W this options) uid reference0.

(** [{ contentType, ...options }] in [uploadFile] *)
Definition fileOptionsOf (type : string) (options : option FileUploadOptions)
  : FileUploadOptions :=
  match options with
  | Some o => {|
      fileUpload := fileUpload o;
      size := size o;
      contentType :=
        match contentType o with
        | Some given => Some given
        | None => Some type
        end
    |}
  | None => {|
      fileUpload := {| pin := None; encrypt := None; tag := None;
                       deferred := None |};
      size := None;
      contentType := Some type
    |}
  end.

(** [isReadable(data) && options?.tag && !options.size]: the tag to update
    after the upload of a stream, if the condition holds. *)
Definition tagOfStream (data : FileArg) (options : option FileUploadOptions)
  : option N :=
  match data, options with
  | FileReadable _, Some o =>
      match tag (fileUpload o) with
      | Some t =>
          if negb (t =? 0) && negb (truthyNumber (size o)) then Some t
          else None
      | None => None
      end
  | _, _ => None
  end.

(** [isFile(data)]: the [File], or the data as [bzz.uploadFile] takes it. *)
Definition fileOrPayload (data : FileArg) : JsFile + FilePayload :=
  match data with
  | FileOfBrowser f => inl f
  | FileString s => inr (PayloadString s)
  | FileBytes b => inr (PayloadBytes b)
  | FileReadable stream => inr (PayloadReadable stream)
  end.

(** [async uploadFile(postageBatchId, data, name?, options?,
    requestOptions?)].  [name] has the type [string | undefined], so the
    test on its type passes; [isFile] and [isReadable] hold of the [File]
    and of the [Readable] member of the union. *)
Definition uploadFile (this : Bee) (postageBatchId : BatchId)
  (data : FileArg) (name : option string)
  (options : option FileUploadOptions)
  (requestOptions0 : option BeeRequestOptions) : Async UploadResultWithCid :=
  await _ := sync (assertBatchId W postageBatchId) in
  await _ := sync (assertFileData A data) in
  await _ := sync (match options with
                   | Some o => assertFileUploadOptions A o
                   | None => Return tt
                   end) in
  match fileOrPayload data with
  | inl f =>
      await fileData := fileArrayBuffer A f in
      let fileName0 := match name with Some n => n | None => fileName f end in
      let fileOptions := fileOptionsOf (fileType f) options in
      await result :=
        bzz_uploadFile A (getRequestOptionsForCall W this requestOptions0)
          (PayloadBytes fileData) postageBatchId (Some fileName0)
          (Some fileOptions) in
      resolve (addCidConversionFunction result MANIFEST)
  | inr payload =>
      match tagOfStream data options with
      | Some t =>
          await result :=
            bzz_uploadFile A (getRequestOptionsForCall W this requestOptions0)
              payload postageBatchId name options in
          await _ := updateTag this (TagNumber t) (reference result) None in
          resolve (addCidConversionFunction result MANIFEST)
      | None =>
          await result :=
            bzz_uploadFile A (getRequestOptionsForCall W this requestOptions0)
              payload postageBatchId name options in
          resolve (addCidConversionFunction result MANIFEST)
      end
  end.

End BytesModule.

(* ================================================================== *)
(** ** Postal Service for Swarm: [pssSubscribe] and [pssReceive]

    A subscription is an object with state: the flag [cancelled] the
    closures share, and the socket.  It is modelled as a state and one
    function per closure of the source: [cancel], and the continuation of
    [ws.onmessage] after its [await] and [ws.onerror], each run to its end.
    The handler is code of the caller: it has a state of its own type [H],
    and says whether it called [subscription.cancel()]. *)

(** The socket [pss.subscribe] returns: [ws.terminate] exists in Node.js,
    not in the browser. *)
Record WebSocket : Type := mkWebSocket {
  socketUrl : string;
  socketTopic : string;
  hasTerminate : bool
}.

Inductive SocketCall : Type := Terminate | Close.

(** What the handler was handed. *)
Inductive Handed : Type :=
| HandedMessage (data : Data)
| HandedError (error : JsError).

Record PssMessageHandler (H : Type) : Type := mkHandler {
  onMessage : Data -> H -> H * bool;
  onError : JsError -> H -> H * bool
}.

Arguments onMessage {H} _ _ _.
Arguments onError {H} _ _ _.

Record PssSubscription (H : Type) : Type := mkSubscription {
  subscriptionTopic : string;
  socket : WebSocket;
  cancelled : bool;
  socketCalls : list SocketCall;
  handed : list Handed;
  handlerState : H
}.

Arguments mkSubscription {H} _ _ _ _ _ _.
Arguments subscriptionTopic {H} _.
Arguments socket {H} _.
Arguments cancelled {H} _.
Arguments socketCalls {H} _.
Arguments handed {H} _.
Arguments handlerState {H} _.

Section Pss.

Variable A : Api.

(** [pss.subscribe(url, topic)] of [./modules/pss] *)
Variable pss_subscribe : string -> string -> WebSocket.

Context {H : Type}.

Variable handler : PssMessageHandler H.

(** [pssSubscribe(topic, handler)]: the subscription as it is returned,
    the handler starting in the state [h0].  [handler] and [topic] have
    their declared types, so the two assertions pass. *)
Definition pssSubscribe (this : Bee) (topic : string) (h0 : H)
  : PssSubscription H := {|
  subscriptionTopic := topic;
  socket := pss_subscribe (url this) topic;
  cancelled := false;
  socketCalls := [];
  handed := [];
  handlerState := h0
|}.

(** The closure [cancel] *)
Definition cancel (s : PssSubscription H) : PssSubscription H :=
  if cancelled s then s
  else {|
    subscriptionTopic := subscriptionTopic s;
    socket := socket s;
    cancelled := true;
    socketCalls :=
      socketCalls s ++ [if hasTerminate (socket s) then Terminate else Close];
    handed := handed s;
    handlerState := handlerState s
  |}.

(** A call of the handler: it is handed [what], its state moves on, and it
    may have called [subscription.cancel()]. *)
Definition hand (what : Handed) (reaction : H * bool) (s : PssSubscription H)
  : PssSubscription H :=
  let s' := {|
    subscriptionTopic := subscriptionTopic s;
    socket := socket s;
    cancelled := cancelled s;
    socketCalls := socketCalls s;
    handed := handed s ++ [what];
    handlerState := fst reaction
  |} in
  if snd reaction then cancel s' else s'.

(** [ws.onmessage], from the end of [await prepareWebsocketData(ev.data)],
    which gave [data] *)
Definition wsOnMessage (data : Uint8Array) (s : PssSubscription H)
  : PssSubscription H :=
  if 0 <? byteLength data then
    hand (HandedMessage (wrapBytesWithHelpers A data))
         (onMessage handler (wrapBytesWithHelpers A data) (handlerState s)) s
  else s.

(** [ws.onerror] *)
Definition wsOnError (message : string) (s : PssSubscription H)
  : PssSubscription H :=
  if negb (cancelled s) then
    hand (HandedError (BeeError message))
         (onError handler (BeeError message) (handlerState s)) s
  else s.

(** What can happen to a subscription: the socket delivers a message or an
    error, or the caller cancels. *)
Inductive PssEvent : Type :=
| SocketMessage (data : Uint8Array)
| SocketError (message : string)
| CallerCancels.

Definition pssStep (s : PssSubscription H) (ev : PssEvent)
  : PssSubscription H :=
  match ev with
  | SocketMessage data => wsOnMessage data s
  | SocketError message => wsOnError message s
  | CallerCancels => cancel s
  end.

Definition pssRun (s : PssSubscription H) (events : list PssEvent)
  : PssSubscription H :=
  fold_left pssStep events s.

End Pss.

(** *** [pssReceive]

    The promise of [pssReceive] and its timer are the state of the handler
    it subscribes with.  A promise settles once; a timer that was cleared,
    or has fired, does not fire. *)

Inductive Settlement : Type :=
| Resolved (message : Data)
| RejectedWith (reason : string)      (* reject(error.message) *)
| Rejected (error : JsError).

Inductive Timer : Type := NoTimer | Pending | Cleared | Fired.

Record Receiving : Type := mkReceiving {
  promise : option Settlement;
  timer : Timer
}.

(** [resolve] and [reject] of a promise that may be settled already *)
Definition settle (outcome : Settlement) (r : Receiving) : Receiving :=
  match promise r with
  | Some _ => r
  | None => {| promise := Some outcome; timer := timer r |}
  end.

(** [clearTimeout(timeout)] *)
Definition clearTimeout (r : Receiving) : Receiving :=
  match timer r with
  | Pending => {| promise := promise r; timer := Cleared |}
  | _ => r
  end.

(** The handler [pssReceive] subscribes with; both callbacks call
    [subscription.cancel()]. *)
Definition receiveHandler : PssMessageHandler Receiving := {|
  onMessage := fun message r => (settle (Resolved message) (clearTimeout r), true);
  onError := fun error r =>
    (settle (RejectedWith (errMessage error)) (clearTimeout r), true)
|}.

Section PssReceive.

Variable A : Api.
Variable pss_subscribe : string -> string -> WebSocket.

(** [pssReceive(topic, timeoutMsec = 0)]: the state the executor of the
    promise leaves: subscribed, the timer set if [timeoutMsec > 0].  [topic]
    is a string and [timeoutMsec] a number, so the two tests on their types
    pass. *)
Definition pssReceive (this : Bee) (topic : string) (timeoutMsec : Z)
  : PssSubscription Receiving :=
  pssSubscribe pss_subscribe this topic
    {| promise := None;
       timer := if (0 <? timeoutMsec)%Z then Pending else NoTimer |}.

(** The callback of [setTimeout], run by the timer when it is pending *)
Definition onTimeout (s : PssSubscription Receiving)
  : PssSubscription Receiving :=
  match timer (handlerState s) with
  | Pending =>
      let s' := cancel s in {|
        subscriptionTopic := subscriptionTopic s';
        socket := socket s';
        cancelled := cancelled s';
        socketCalls := socketCalls s';
        handed := handed s';
        handlerState :=
          settle (Rejected (BeeError "pssReceive timeout"))
            {| promise := promise (handlerState s'); timer := Fired |}
      |}
  | _ => s
  end.

Inductive ReceiveEvent : Type :=
| Arrives (data : Uint8Array)
| Fails (message : string)
| TimerFires.

Definition receiveStep (s : PssSubscription Receiving) (ev : ReceiveEvent)
  : PssSubscription Receiving :=
  match ev with
  | Arrives data => wsOnMessage A receiveHandler data s
  | Fails message => wsOnError receiveHandler message s
  | TimerFires => onTimeout s
  end.

Definition receiveRun (s : PssSubscription Receiving)
  (events : list ReceiveEvent) : PssSubscription Receiving :=
  fold_left receiveStep events s.

End PssReceive.

(** The first event that counts decides a [pssReceive]: a message that is
    not empty, an error, or the timer if one was set. *)
Fixpoint firstOutcome (A : Api) (timerSet : bool) (events : list ReceiveEvent)
  : option Settlement :=
  match events with
  | [] => None
  | Arrives data :: rest =>
      if 0 <? byteLength data
      then Some (Resolved (wrapBytesWithHelpers A data))
      else firstOutcome A timerSet rest
  | Fails message :: rest => Some (RejectedWith message)
  | TimerFires :: rest =>
      if timerSet then Some (Rejected (BeeError "pssReceive timeout"))
      else firstOutcome A timerSet rest
  end.

(** The call that closes the socket. *)
Definition closing (ws : WebSocket) : SocketCall :=
  if hasTerminate ws then Terminate else Close.

(** The socket is called once, to be closed, when the subscription is
    cancelled, and not at all before. *)
Definition closedOnce {H : Type} (s : PssSubscription H) : Prop :=
  socketCalls s = if cancelled s then [closing (socket s)] else [].

(** While the promise of a [pssReceive] is pending the socket is open;
    once it has settled the socket has been closed, by one call, and the
    timer is pending no more. *)
Definition settledAndClosed (s : PssSubscription Receiving) : Prop :=
  match promise (handlerState s) with
  | None => cancelled s = false /\ socketCalls s = []
  | Some _ =>
      cancelled s = true /\ socketCalls s = [closing (socket s)] /\
      timer (handlerState s) <> Pending
  end.

Definition isHandedError (h : Handed) : bool :=
  match h with
  | HandedError _ => true
  | HandedMessage _ => false
  end.

(** The last value assigned to [k] by the properties of [o], in order. *)
Definition lastProperty (k : string) (o : JsObject) : option string :=
  getProperty k (rev o).

(** A concrete [Api]: every request is recorded, the node answers an upload
    with the reference [exampleReference] and the tag 7. *)
Definition exampleReference : Reference :=
  "1111111111111111111111111111111111111111111111111111111111111111".

Definition apiMakeTagUid (t : TagArg) : Completion N :=
  match t with
  | TagNumber n => Return n
  | TagObject uid => Return uid
  | TagString s =>
      match NilEmpty.uint_of_string s with
      | Some d => Return (N.of_uint d)
      | None => Throw (TypeError "tagUid has to be a number or Tag object!")
      end
  end.

Definition apiAssertReference (r : string) : Completion unit :=
  if Nat.eqb (String.length r) 64 || Nat.eqb (String.length r) 128
  then Return tt
  else Throw (TypeError "Reference not valid hex string").

Definition api : Api := {|
  http_reference := fun _ config =>
    request ("POST " ++ configUrl config)
      {| responseData := exampleReference;
         responseHeaders := [("swarm-tag", "7")] |};
  http_arraybuffer := fun _ config =>
    request ("GET " ++ configUrl config)
      {| responseData := [x2a]; responseHeaders := [] |};
  http_stream := fun _ config =>
    request ("GET " ++ configUrl config)
      {| responseData := [[x2a]]; responseHeaders := [] |};
  extractUploadHeaders := fun batch _ => [("swarm-postage-batch-id", batch)];
  wrapBytesWithHelpers := fun b => b;
  makeTagUid := apiMakeTagUid;
  assertData := fun _ => Return tt;
  assertReference := apiAssertReference;
  assertReferenceOrEns := apiAssertReference;
  assertFileData := fun _ => Return tt;
  assertFileUploadOptions := fun _ => Return tt;
  fileArrayBuffer := fun _ => resolve [x2a];
  bzz_uploadFile := fun _ _ _ _ _ =>
    request "POST /bzz" {| reference := exampleReference; tagUid := Some 7 |};
  tag_updateTag := fun _ uid _ => request ("PATCH /tags/" ++ numberToString uid) tt
|}.

Definition taggedStreamOptions : FileUploadOptions := {|
  fileUpload := {| pin := None; encrypt := None; tag := Some 7;
                   deferred := None |};
  size := None;
  contentType := None
|}.

Definition zeroTagOptions : FileUploadOptions := {|
  fileUpload := {| pin := None; encrypt := None; tag := Some 0;
                   deferred := None |};
  size := None;
  contentType := None
|}.

(** A handler that counts the messages it is handed and cancels at the
    first error. *)
Definition countingHandler : PssMessageHandler N := {|
  onMessage := fun _ n => (n + 1, false);
  onError := fun _ n => (n, true)
|}.

Definition nodeSocket (u topic : string) : WebSocket :=
  {| socketUrl := u; socketTopic := topic; hasTerminate := true |}.

(* ================================================================== *)
(** ** Properties *)

(** *** The promise of an [async] method *)

Lemma bindA_sync_Return {A B} (a : A) (k : A -> Async B) :
  bindA (sync (Return a)) k = k a.
Proof. unfold bindA, sync. destruct (k a) as [l r]. reflexivity. Qed.

Lemma bindA_sync_Throw {A B} (e : JsError) (k : A -> Async B) :
  bindA (sync (Throw e)) k = reject e.
Proof. reflexivity. Qed.

Lemma bindA_resolve_r {A} (m : Async A) : bindA m resolve = m.
Proof.
  destruct m as [l [a | e]]; unfold bindA, resolve; simpl;
    rewrite ?app_nil_r; reflexivity.
Qed.

Lemma Async_eta {A} (m : Async A) : m = (calls m, settled m).
Proof. destruct m; reflexivity. Qed.

(** *** uploadChunk *)

(** C5: with a valid postage batch id, [uploadChunk] rejects with the
    too-small [BeeArgumentError] when [data.length < SPAN_SIZE] and with the
    too-large one when [data.length > CHUNK_SIZE + SPAN_SIZE], both without a
    call on the store; data whose length lies within the bounds is handed to
    [chunk.upload] as it is, once the upload options pass their assertion. *)
Theorem uploadChunk_size_bounds (W : World) (this : Bee) (batch : BatchId)
  (data : Uint8Array) (options : option UploadOptions)
  (ro : option BeeRequestOptions) :
  assertBatchId W batch = Return tt ->
  (byteLength data < SPAN_SIZE ->
   uploadChunk W this batch data options ro =
   ([], Throw (BeeArgumentError "Chunk has to have size of at least 8."))) /\
  (CHUNK_SIZE W + SPAN_SIZE < byteLength data ->
   uploadChunk W this batch data options ro =
   ([], Throw (BeeArgumentError
                 ("Chunk has to have size of at most " ++
                  numberToString (CHUNK_SIZE W) ++ ".")))) /\
  (SPAN_SIZE <= byteLength data <= CHUNK_SIZE W + SPAN_SIZE ->
   (forall o, options = Some o -> assertUploadOptions W o = Return tt) ->
   uploadChunk W this batch data options ro =
   chunk_upload W (getRequestOptionsForCall W this ro) data batch options).
Proof.
  intros Hbatch. unfold uploadChunk. rewrite Hbatch, bindA_sync_Return.
  split; [| split].
  - intros Hsmall. apply N.ltb_lt in Hsmall. rewrite Hsmall. reflexivity.
  - intros Hlarge.
    assert (Hnot : (byteLength data <? SPAN_SIZE) = false).
    { apply N.ltb_ge. unfold SPAN_SIZE in *. lia. }
    rewrite Hnot. apply N.ltb_lt in Hlarge. rewrite Hlarge. reflexivity.
  - intros [Hlo Hhi] Hopts.
    apply N.ltb_ge in Hlo. rewrite Hlo.
    apply N.ltb_ge in Hhi. rewrite Hhi.
    destruct options as [o |].
    + rewrite (Hopts o eq_refl), bindA_sync_Return. reflexivity.
    + rewrite bindA_sync_Return. reflexivity.
Qed.

Lemma uploadChunk_size_bounds_witness :
  uploadChunk (world emptyFeed) exampleBee exampleBatchId
    (repeat x00 7) None None =
  ([], Throw (BeeArgumentError "Chunk has to have size of at least 8.")) /\
  uploadChunk (world emptyFeed) exampleBee exampleBatchId
    (repeat x00 4105) None None =
  ([], Throw (BeeArgumentError "Chunk has to have size of at most 4096.")) /\
  uploadChunk (world emptyFeed) exampleBee exampleBatchId
    (repeat x00 4104) None None =
  chunk_upload (world emptyFeed) (requestOptions exampleBee)
    (repeat x00 4104) exampleBatchId None.
Proof.
  assert (Hbatch : assertBatchId (world emptyFeed) exampleBatchId = Return tt)
    by reflexivity.
  split; [| split].
  - apply (proj1 (uploadChunk_size_bounds (world emptyFeed) exampleBee
                    exampleBatchId (repeat x00 7) None None Hbatch)).
    reflexivity.
  - apply (proj1 (proj2 (uploadChunk_size_bounds (world emptyFeed) exampleBee
                           exampleBatchId (repeat x00 4105) None None Hbatch))).
    reflexivity.
  - apply (proj2 (proj2 (uploadChunk_size_bounds (world emptyFeed) exampleBee
                           exampleBatchId (repeat x00 4104) None None Hbatch))).
    + split; vm_compute; discriminate.
    + intros o Ho. discriminate Ho.
Defined.

(** *** getJsonFeed: the signer and the address exclude each other *)

(** C8: [getJsonFeed] rejects with a [BeeError] whenever both
    [options.signer] and [options.address] are given, and it does so without
    a call on the network (the options having passed their assertion). *)
Theorem getJsonFeed_signer_and_address (W : World) (this : Bee)
  (topic : string) (o : JsonFeedOptions) :
  assertRequestOptions W (Some (jsonRequest o)) "JsonFeedOptions" = Return tt ->
  truthyOpt (jsonSigner o) = true ->
  truthyOpt (jsonAddress o) = true ->
  exists e,
    getJsonFeed W this topic (Some o) = ([], Throw e) /\
    instanceofBeeError e = true /\
    errMessage e =
      "Both options " ++ quoted "signer" ++ " and " ++ quoted "address" ++
      " can not be specified at one time!".
Proof.
  intros Hassert Hsigner Haddress.
  eexists. split; [| split].
  - unfold getJsonFeed. simpl option_map.
    rewrite Hassert, bindA_sync_Return.
    unfold jsonFeedAddress, signerOf, addressOf.
    rewrite Hsigner, Haddress. simpl andb. cbv iota.
    rewrite bindA_sync_Throw. reflexivity.
  - reflexivity.
  - reflexivity.
Qed.

Lemma getJsonFeed_signer_and_address_witness :
  exists e,
    getJsonFeed (world feedUpTo4) exampleBee "news"
      (Some {| jsonRequest := noOptions;
               jsonAddress := Some (U8 exampleOwner);
               jsonSigner := Some (Canon exampleSigner);
               jsonType := None |}) = ([], Throw e) /\
    instanceofBeeError e = true /\
    errMessage e =
      "Both options " ++ quoted "signer" ++ " and " ++ quoted "address" ++
      " can not be specified at one time!".
Proof.
  apply (getJsonFeed_signer_and_address (world feedUpTo4) exampleBee "news");
    reflexivity.
Defined.

(** *** isConnected *)

(** C9, as the code has it: the assertion on the request options stands
    before the [try], so its error rejects the promise, without a call; once
    the options pass, [isConnected] never rejects: it resolves to [true] when
    the connection check resolves and to [false] when the check rejects,
    whatever the error. *)
Theorem isConnected_settles (W : World) (this : Bee)
  (options : option BeeRequestOptions) :
  let check := status_checkConnection W (getRequestOptionsForCall W this options) in
  (forall e,
      assertRequestOptions W options "PostageBatchOptions" = Throw e ->
      isConnected W this options = ([], Throw e)) /\
  (assertRequestOptions W options "PostageBatchOptions" = Return tt ->
   (forall u, settled check = Return u ->
              isConnected W this options = (calls check, Return true)) /\
   (forall e, settled check = Throw e ->
              isConnected W this options = (calls check, Return false))).
Proof.
  intros check. unfold isConnected. fold check. split.
  - intros e He. rewrite He. reflexivity.
  - intros Hok. rewrite Hok, bindA_sync_Return.
    destruct check as [l [u | e]]; simpl; split.
    + intros u' _. rewrite app_nil_r. reflexivity.
    + intros e H. discriminate H.
    + intros u H. discriminate H.
    + intros e' _. rewrite app_nil_r. reflexivity.
Qed.

Lemma isConnected_settles_witness :
  isConnected (world emptyFeed) exampleBee None =
  ([Request "GET /"], Return true).
Proof.
  apply (proj1 (proj2 (isConnected_settles (world emptyFeed) exampleBee None)
                  eq_refl) tt).
  reflexivity.
Defined.

(** C9, as stated, fails: with request options that do not pass
    [assertRequestOptions] (here a negative timeout) the promise of
    [isConnected] rejects. *)
Lemma isConnected_rejects_invalid_options :
  isConnected (world emptyFeed) exampleBee (Some negativeTimeout) =
    ([], Throw (BeeArgumentError
                  "PostageBatchOptions.timeout has to be a non-negative integer!")) /\
  ~ (exists b,
       settled (isConnected (world emptyFeed) exampleBee (Some negativeTimeout))
       = Return b).
Proof.
  split.
  - reflexivity.
  - intros [b H]. vm_compute in H. discriminate H.
Qed.

(** *** isFeedRetrievable *)

(** The download of the latest update, as the [try] of [isFeedRetrievable]
    runs it. *)
Lemma latestIsRetrievable_cases (W : World) (this : Bee) (type : FeedType)
  (t : Topic) (a : EthAddress) :
  let latest :=
    bindA (sync (makeFeedReader W this type (Canon t) (Canon a) None))
          (fun reader => download reader) in
  latestIsRetrievable W this type t a =
  match settled latest with
  | Return _ => (calls latest, Return true)
  | Throw e =>
      if status404 e then (calls latest, Return false)
      else (calls latest, Throw e)
  end.
Proof.
  unfold latestIsRetrievable.
  destruct (makeFeedReader W this type (Canon t) (Canon a) None) as [r | e].
  - rewrite !bindA_sync_Return.
    destruct (download r) as [l [u | e]]; simpl.
    + rewrite app_nil_r. reflexivity.
    + destruct (status404 e); simpl; rewrite app_nil_r; reflexivity.
  - rewrite !bindA_sync_Throw. simpl.
    destruct (status404 e); reflexivity.
Qed.

(** C3: for a feed of any type, [isFeedRetrievable] without a target index
    downloads the latest update and resolves to [true] when the download
    succeeds and to [false] when it fails with the status 404; any other
    error rejects the promise, unchanged. *)
Theorem isFeedRetrievable_latest (W : World) (this : Bee) (type : FeedType)
  (owner : Arg EthAddress) (topic : Arg Topic)
  (options : option BeeRequestOptions) (a : EthAddress) (t : Topic) :
  makeEthAddress W owner = Return a ->
  makeTopic W topic = Return t ->
  let latest :=
    bindA (sync (makeFeedReader W this type (Canon t) (Canon a) None))
          (fun reader => download reader) in
  (forall u, settled latest = Return u ->
     isFeedRetrievable W this type owner topic None options =
     (calls latest, Return true)) /\
  (forall e, settled latest = Throw e -> status404 e = true ->
     isFeedRetrievable W this type owner topic None options =
     (calls latest, Return false)) /\
  (forall e, settled latest = Throw e -> status404 e = false ->
     isFeedRetrievable W this type owner topic None options =
     (calls latest, Throw e)).
Proof.
  intros Howner Htopic latest.
  assert (Hrun : isFeedRetrievable W this type owner topic None options =
                 latestIsRetrievable W this type t a).
  { unfold isFeedRetrievable.
    rewrite Howner, bindA_sync_Return, Htopic, bindA_sync_Return.
    reflexivity. }
  rewrite Hrun, latestIsRetrievable_cases. fold latest.
  split; [| split].
  - intros u Hu. rewrite Hu. reflexivity.
  - intros e He H404. rewrite He, H404. reflexivity.
  - intros e He H404. rewrite He, H404. reflexivity.
Qed.

Lemma isFeedRetrievable_latest_witness :
  isFeedRetrievable (world feedUpTo4) exampleBee sequence (U8 exampleOwner)
    (U8 exampleTopic) None None =
  ([Fetch 0; Fetch 1; Fetch 2; Fetch 4; Fetch 8; Fetch 6; Fetch 5],
   Return true) /\
  isFeedRetrievable (world emptyFeed) exampleBee epoch (U8 exampleOwner)
    (U8 exampleTopic) None None =
  ([Request "GET /feeds"], Return false).
Proof.
  split.
  - apply (proj1 (isFeedRetrievable_latest (world feedUpTo4) exampleBee
                    sequence (U8 exampleOwner) (U8 exampleTopic) None
                    exampleOwner exampleTopic eq_refl eq_refl)
             {| updatePayload := [x2a]; feedIndex := 4 |}).
    vm_compute. reflexivity.
  - apply (proj1 (proj2 (isFeedRetrievable_latest (world emptyFeed) exampleBee
                    epoch (U8 exampleOwner) (U8 exampleTopic) None
                    exampleOwner exampleTopic eq_refl eq_refl))
             FeedNotFound); vm_compute; reflexivity.
Defined.

(** C2, as the code has it: for an Epoch feed and a target index (one that
    is truthy), [isFeedRetrievable] rejects with the [BeeError] "Only
    Sequence type of Feeds is supported at the moment", once owner and topic
    are canonical and without a call on the network: no ancestor chain is
    walked and no verdict is returned. *)
Theorem isFeedRetrievable_epoch_unsupported (W : World) (this : Bee)
  (owner : Arg EthAddress) (topic : Arg Topic) (i : IndexArg)
  (options : option BeeRequestOptions) (a : EthAddress) (t : Topic) :
  makeEthAddress W owner = Return a ->
  makeTopic W topic = Return t ->
  truthyIndex i = true ->
  isFeedRetrievable W this epoch owner topic (Some i) options =
  ([], Throw (BeeError "Only Sequence type of Feeds is supported at the moment")).
Proof.
  intros Howner Htopic Hindex. unfold isFeedRetrievable.
  rewrite Howner, bindA_sync_Return, Htopic, bindA_sync_Return, Hindex.
  reflexivity.
Qed.

Lemma isFeedRetrievable_epoch_unsupported_witness :
  isFeedRetrievable (world feedUpTo4) exampleBee epoch (U8 exampleOwner)
    (U8 exampleTopic) (Some (IndexNumber 4)) None =
  ([], Throw (BeeError "Only Sequence type of Feeds is supported at the moment")).
Proof.
  apply (isFeedRetrievable_epoch_unsupported (world feedUpTo4) exampleBee
           (U8 exampleOwner) (U8 exampleTopic) (IndexNumber 4) None
           exampleOwner exampleTopic); reflexivity.
Defined.

(** C2, as stated, fails: for an Epoch feed and the target index 4 the
    promise of [isFeedRetrievable] rejects; there is no boolean verdict. *)
Lemma isFeedRetrievable_epoch_no_verdict :
  settled (isFeedRetrievable (world feedUpTo4) exampleBee epoch
             (U8 exampleOwner) (U8 exampleTopic) (Some (IndexNumber 4)) None) =
    Throw (BeeError "Only Sequence type of Feeds is supported at the moment") /\
  ~ (exists b,
       settled (isFeedRetrievable (world feedUpTo4) exampleBee epoch
                  (U8 exampleOwner) (U8 exampleTopic) (Some (IndexNumber 4))
                  None) = Return b).
Proof.
  split.
  - reflexivity.
  - intros [b H]. vm_compute in H. discriminate H.
Qed.

(** *** The signing identity *)

Lemma resolveSigner_call_site (W : World) (this : Bee) (s : Arg Signer) :
  truthyArg s = true ->
  resolveSigner W this (Some s) = makeSigner W s.
Proof. intros Hs. unfold resolveSigner. rewrite Hs. reflexivity. Qed.

Lemma resolveSigner_default (W : World) (this : Bee)
  (s : option (Arg Signer)) :
  truthyOpt s = false ->
  resolveSigner W this s = defaultSigner this.
Proof.
  intros Hs. unfold resolveSigner. destruct s as [s |]; [| reflexivity].
  simpl in Hs. rewrite Hs. reflexivity.
Qed.

(** The address [getJsonFeed] reads from, and the signer [resolveSigner]
    gives, case by case. *)
Lemma jsonFeedAddress_precedence (W : World) (this : Bee)
  (o : JsonFeedOptions) :
  (* getJsonFeed *)
  (truthyOpt (jsonSigner o) = true -> truthyOpt (jsonAddress o) = true ->
   exists e, jsonFeedAddress W this (Some o) = Throw e /\
             instanceofBeeError e = true) /\
  (forall a, jsonAddress o = Some a -> truthyArg a = true ->
             truthyOpt (jsonSigner o) = false ->
             jsonFeedAddress W this (Some o) = makeEthAddress W a) /\
  (forall s made, jsonSigner o = Some s -> truthyArg s = true ->
                  truthyOpt (jsonAddress o) = false ->
                  makeSigner W s = Return made ->
                  jsonFeedAddress W this (Some o) = Return (signerAddress made)) /\
  (forall d, truthyOpt (jsonSigner o) = false ->
             truthyOpt (jsonAddress o) = false ->
             signer this = Some d ->
             jsonFeedAddress W this (Some o) = Return (signerAddress d)) /\
  (truthyOpt (jsonSigner o) = false -> truthyOpt (jsonAddress o) = false ->
   signer this = None ->
   jsonFeedAddress W this (Some o) =
   Throw (BeeError "Either address, signer or default signer has to be specified!")) /\
  (* makeFeedWriter, makeSOCWriter, setJsonFeed *)
  (forall s, jsonSigner o = Some s -> truthyArg s = true ->
             resolveSigner W this (jsonSigner o) = makeSigner W s) /\
  (forall d, truthyOpt (jsonSigner o) = false -> signer this = Some d ->
             resolveSigner W this (jsonSigner o) = Return d) /\
  (truthyOpt (jsonSigner o) = false -> signer this = None ->
   exists e, resolveSigner W this (jsonSigner o) = Throw e /\
             instanceofBeeError e = true).
Proof.
  unfold jsonFeedAddress, resolvedSignerAddress, signerOf, addressOf.
  repeat split.
  - intros Hs Ha. rewrite Hs, Ha. eexists. split; reflexivity.
  - intros a Ha Hta Hs. rewrite Hs, Ha. simpl. rewrite Hta. reflexivity.
  - intros s made Hs Hts Ha Hmade. rewrite Ha, andb_false_r.
    rewrite Hs, (resolveSigner_call_site W this s Hts), Hmade.
    destruct (jsonAddress o) as [a |]; [| reflexivity].
    simpl in Ha. rewrite Ha. reflexivity.
  - intros d Hs Ha Hd. rewrite Ha, andb_false_r.
    rewrite (resolveSigner_default W this _ Hs). unfold defaultSigner.
    rewrite Hd.
    destruct (jsonAddress o) as [a |]; [| reflexivity].
    simpl in Ha. rewrite Ha. reflexivity.
  - intros Hs Ha Hd. rewrite Ha, andb_false_r.
    rewrite (resolveSigner_default W this _ Hs). unfold defaultSigner.
    rewrite Hd.
    destruct (jsonAddress o) as [a |]; [| reflexivity].
    simpl in Ha. rewrite Ha. reflexivity.
  - intros s Hs Hts. rewrite Hs. apply resolveSigner_call_site, Hts.
  - intros d Hs Hd. rewrite (resolveSigner_default W this _ Hs).
    unfold defaultSigner. rewrite Hd. reflexivity.
  - intros Hs Hd. rewrite (resolveSigner_default W this _ Hs).
    unfold defaultSigner. rewrite Hd. eexists. split; reflexivity.
Qed.

Lemma resolveSigner_cases (W : World) (this : Bee)
  (s : option (Arg Signer)) :
  (forall sg, s = Some sg -> truthyArg sg = true ->
              resolveSigner W this s = makeSigner W sg) /\
  (forall d, truthyOpt s = false -> signer this = Some d ->
             resolveSigner W this s = Return d) /\
  (truthyOpt s = false -> signer this = None ->
   resolveSigner W this s =
   Throw (BeeError "You have to pass Signer as property to either the method call or constructor! Non found.")).
Proof.
  split; [| split].
  - intros sg -> Hts. apply resolveSigner_call_site, Hts.
  - intros d Hs Hd. rewrite (resolveSigner_default W this _ Hs).
    unfold defaultSigner. rewrite Hd. reflexivity.
  - intros Hs Hd. rewrite (resolveSigner_default W this _ Hs).
    unfold defaultSigner. rewrite Hd. reflexivity.
Qed.

(** [getJsonFeed], once the options have passed their assertion, is the
    reading of the feed of the address [jsonFeedAddress] gives. *)
Lemma getJsonFeed_from_address (W : World) (this : Bee) (topic : string)
  (o : JsonFeedOptions) :
  assertRequestOptions W (Some (jsonRequest o)) "JsonFeedOptions" = Return tt ->
  getJsonFeed W this topic (Some o) =
  bindA (sync (jsonFeedAddress W this (Some o)))
    (fun address =>
       bindA (sync (makeFeedReader W this (feedTypeOf W (Some o))
                      (Canon (makeFeedTopic W topic)) (Canon address)
                      (Some (jsonRequest o))))
         (fun reader => getJsonData W this reader)).
Proof.
  intros Hassert. unfold getJsonFeed. simpl option_map.
  rewrite Hassert, bindA_sync_Return. reflexivity.
Qed.

(** C4, as the code has it.  [getJsonFeed] raises a [BeeError] when a
    call-site signer and a call-site address are both given; otherwise it
    reads the feed of the call-site address if given, else of the address
    of the call-site signer if given, else of the address of the default
    signer, and raises a [BeeError] when none is available.
    [makeFeedWriter], [makeSOCWriter] and [setJsonFeed] write with the
    call-site signer if given, else with the default signer, and raise a
    [BeeError] when neither is available; a call-site address plays no part
    there. *)
Theorem signing_identity_precedence (W : World) (this : Bee)
  (o : JsonFeedOptions) (s : option (Arg Signer)) (topic : string)
  (batch : BatchId) (data : AnyJson) (type : FeedType)
  (writerTopic : Arg Topic) (ro : option BeeRequestOptions) :
  (* getJsonFeed *)
  (assertRequestOptions W (Some (jsonRequest o)) "JsonFeedOptions" = Return tt ->
   let readFrom address :=
     bindA (sync (makeFeedReader W this (feedTypeOf W (Some o))
                    (Canon (makeFeedTopic W topic)) (Canon address)
                    (Some (jsonRequest o))))
       (fun reader => getJsonData W this reader) in
   (truthyOpt (jsonSigner o) = true -> truthyOpt (jsonAddress o) = true ->
    exists e, getJsonFeed W this topic (Some o) = ([], Throw e) /\
              instanceofBeeError e = true) /\
   (forall a address,
       jsonAddress o = Some a -> truthyArg a = true ->
       truthyOpt (jsonSigner o) = false ->
       makeEthAddress W a = Return address ->
       getJsonFeed W this topic (Some o) = readFrom address) /\
   (forall sg made,
       jsonSigner o = Some sg -> truthyArg sg = true ->
       truthyOpt (jsonAddress o) = false ->
       makeSigner W sg = Return made ->
       getJsonFeed W this topic (Some o) = readFrom (signerAddress made)) /\
   (forall d,
       truthyOpt (jsonSigner o) = false -> truthyOpt (jsonAddress o) = false ->
       signer this = Some d ->
       getJsonFeed W this topic (Some o) = readFrom (signerAddress d)) /\
   (truthyOpt (jsonSigner o) = false -> truthyOpt (jsonAddress o) = false ->
    signer this = None ->
    getJsonFeed W this topic (Some o) =
    ([], Throw (BeeError "Either address, signer or default signer has to be specified!")))) /\
  (* makeFeedWriter *)
  (forall t,
      assertRequestOptions W ro "RequestOptions" = Return tt ->
      assertFeedType W type = Return tt ->
      makeTopic W writerTopic = Return t ->
      let writerOf chosen :=
        feed_makeFeedWriter W (getRequestOptionsForCall W this ro) type t
          chosen in
      (forall sg made,
          s = Some sg -> truthyArg sg = true -> makeSigner W sg = Return made ->
          makeFeedWriter W this type writerTopic s ro = Return (writerOf made)) /\
      (forall d,
          truthyOpt s = false -> signer this = Some d ->
          makeFeedWriter W this type writerTopic s ro = Return (writerOf d)) /\
      (truthyOpt s = false -> signer this = None ->
       exists e, makeFeedWriter W this type writerTopic s ro = Throw e /\
                 instanceofBeeError e = true)) /\
  (* makeSOCWriter *)
  (assertRequestOptions W ro "RequestOptions" = Return tt ->
   let writerOf chosen :=
     bindC (makeSOCReader W this (Canon (signerAddress chosen)) ro)
       (fun reader =>
          Return {| socReader := reader;
                    socUpload :=
                      uploadSingleOwnerChunkData W
                        (getRequestOptionsForCall W this ro) chosen |}) in
   (forall sg made,
       s = Some sg -> truthyArg sg = true -> makeSigner W sg = Return made ->
       makeSOCWriter W this s ro = writerOf made) /\
   (forall d,
       truthyOpt s = false -> signer this = Some d ->
       makeSOCWriter W this s ro = writerOf d) /\
   (truthyOpt s = false -> signer this = None ->
    exists e, makeSOCWriter W this s ro = Throw e /\
              instanceofBeeError e = true)) /\
  (* setJsonFeed: whatever [options.address] is *)
  (forall t,
      assertRequestOptions W (Some (jsonRequest o)) "JsonFeedOptions"
      = Return tt ->
      assertBatchId W batch = Return tt ->
      assertRequestOptions W ro "RequestOptions" = Return tt ->
      assertFeedType W (feedTypeOf W (Some o)) = Return tt ->
      makeTopic W (Canon (makeFeedTopic W topic)) = Return t ->
      let writeWith chosen :=
        setJsonData W this
          (feed_makeFeedWriter W (getRequestOptionsForCall W this ro)
             (feedTypeOf W (Some o)) t chosen)
          batch data (Some o) ro in
      (forall sg made,
          jsonSigner o = Some sg -> truthyArg sg = true ->
          makeSigner W sg = Return made ->
          setJsonFeed W this batch topic data (Some o) ro = writeWith made) /\
      (forall d,
          truthyOpt (jsonSigner o) = false -> signer this = Some d ->
          setJsonFeed W this batch topic data (Some o) ro = writeWith d) /\
      (truthyOpt (jsonSigner o) = false -> signer this = None ->
       exists e, setJsonFeed W this batch topic data (Some o) ro
                 = ([], Throw e) /\
                 instanceofBeeError e = true)).
Proof.
  split; [| split; [| split]].
  - intros Hassert readFrom.
    pose proof (getJsonFeed_from_address W this topic o Hassert) as Hget.
    destruct (jsonFeedAddress_precedence W this o)
      as [Hboth [Haddress [Hsigner [Hdefault [Hnone _]]]]].
    split; [| split; [| split; [| split]]].
    + intros Hs Ha. destruct (Hboth Hs Ha) as [e [He Hbee]].
      exists e. split; [| exact Hbee]. rewrite Hget, He. reflexivity.
    + intros a address Ha Hta Hs Haddr.
      rewrite Hget, (Haddress a Ha Hta Hs), Haddr, bindA_sync_Return.
      reflexivity.
    + intros sg made Hs Hts Ha Hmade.
      rewrite Hget, (Hsigner sg made Hs Hts Ha Hmade), bindA_sync_Return.
      reflexivity.
    + intros d Hs Ha Hd.
      rewrite Hget, (Hdefault d Hs Ha Hd), bindA_sync_Return. reflexivity.
    + intros Hs Ha Hd. rewrite Hget, (Hnone Hs Ha Hd). reflexivity.
  - intros t Hassert Htype Htopic writerOf.
    destruct (resolveSigner_cases W this s) as [Hcall [Hdefault Hnone]].
    assert (Hrun : makeFeedWriter W this type writerTopic s ro =
                   bindC (resolveSigner W this s)
                     (fun chosen => Return (writerOf chosen))).
    { unfold makeFeedWriter. rewrite Hassert, Htype. simpl bindC.
      rewrite Htopic. reflexivity. }
    rewrite Hrun. split; [| split].
    + intros sg made Hs Hts Hmade.
      rewrite (Hcall sg Hs Hts), Hmade. reflexivity.
    + intros d Hs Hd. rewrite (Hdefault d Hs Hd). reflexivity.
    + intros Hs Hd. rewrite (Hnone Hs Hd). eexists. split; reflexivity.
  - intros Hassert writerOf.
    destruct (resolveSigner_cases W this s) as [Hcall [Hdefault Hnone]].
    assert (Hrun : makeSOCWriter W this s ro =
                   bindC (resolveSigner W this s) writerOf).
    { unfold makeSOCWriter. rewrite Hassert. reflexivity. }
    rewrite Hrun. split; [| split].
    + intros sg made Hs Hts Hmade.
      rewrite (Hcall sg Hs Hts), Hmade. reflexivity.
    + intros d Hs Hd. rewrite (Hdefault d Hs Hd). reflexivity.
    + intros Hs Hd. rewrite (Hnone Hs Hd). eexists. split; reflexivity.
  - intros t Hjson Hbatch Hro Htype Htopic writeWith.
    destruct (resolveSigner_cases W this (jsonSigner o))
      as [Hcall [Hdefault Hnone]].
    assert (Hrun : setJsonFeed W this batch topic data (Some o) ro =
                   bindA (sync (resolveSigner W this (jsonSigner o)))
                     (fun chosen => writeWith chosen)).
    { unfold setJsonFeed. simpl option_map.
      rewrite Hjson, bindA_sync_Return, Hbatch, bindA_sync_Return.
      unfold makeFeedWriter, signerOf. rewrite Hro, Htype. simpl bindC.
      rewrite Htopic. simpl bindC.
      destruct (resolveSigner W this (jsonSigner o)) as [chosen | e].
      - simpl bindC. rewrite !bindA_sync_Return. reflexivity.
      - reflexivity. }
    rewrite Hrun. split; [| split].
    + intros sg made Hs Hts Hmade.
      rewrite (Hcall sg Hs Hts), Hmade, bindA_sync_Return. reflexivity.
    + intros d Hs Hd. rewrite (Hdefault d Hs Hd), bindA_sync_Return.
      reflexivity.
    + intros Hs Hd. rewrite (Hnone Hs Hd). eexists. split; reflexivity.
Qed.

Lemma signing_identity_precedence_witness :
  getJsonFeed (world feedUpTo4) exampleBeeWithSigner "news"
    (Some {| jsonRequest := noOptions; jsonAddress := Some (U8 exampleOwner);
             jsonSigner := None; jsonType := None |}) =
  bindA (sync (makeFeedReader (world feedUpTo4) exampleBeeWithSigner sequence
                 (Canon (worldTopicFromString "news")) (Canon exampleOwner)
                 (Some noOptions)))
    (fun reader => getJsonData (world feedUpTo4) exampleBeeWithSigner reader) /\
  makeFeedWriter (world feedUpTo4) exampleBeeWithSigner sequence
    (U8 exampleTopic) None None =
  Return (feed_makeFeedWriter (world feedUpTo4)
            (requestOptions exampleBeeWithSigner) sequence exampleTopic
            exampleSigner).
Proof.
  pose proof (signing_identity_precedence (world feedUpTo4)
                exampleBeeWithSigner
                {| jsonRequest := noOptions;
                   jsonAddress := Some (U8 exampleOwner);
                   jsonSigner := None; jsonType := None |}
                None "news" exampleBatchId "{}" sequence (U8 exampleTopic)
                None) as [Hget [Hwriter _]].
  split.
  - apply (proj1 (proj2 (Hget eq_refl)) (U8 exampleOwner) exampleOwner);
      reflexivity.
  - apply (proj1 (proj2 (Hwriter exampleTopic eq_refl eq_refl eq_refl))
             exampleSigner); reflexivity.
Defined.

(** C4, as stated, fails: with a call-site signer, a call-site address and
    a default signer all available, [getJsonFeed] raises an error; and with
    a call-site address alone, [setJsonFeed] raises one too. *)
Lemma signer_and_address_is_an_error :
  (exists e,
     getJsonFeed (world feedUpTo4) exampleBeeWithSigner "news"
       (Some {| jsonRequest := noOptions;
                jsonAddress := Some (U8 exampleOwner);
                jsonSigner := Some (Canon exampleSigner);
                jsonType := None |}) = ([], Throw e)) /\
  (exists e,
     setJsonFeed (world feedUpTo4) exampleBee exampleBatchId "news" "{}"
       (Some {| jsonRequest := noOptions;
                jsonAddress := Some (U8 exampleOwner);
                jsonSigner := None;
                jsonType := None |}) None = ([], Throw e)).
Proof.
  split; eexists; vm_compute; reflexivity.
Qed.

(** *** Canonical owner and topic *)



(** *** The constructor and the URL of the node *)

Lemma append_slash_not_empty (s : string) : s ++ "/" <> EmptyString.
Proof. destruct s; discriminate. Qed.

Lemma string_append_assoc (a b c : string) : (a ++ b) ++ c = a ++ (b ++ c).
Proof. induction a as [| x a IH]; simpl; [| rewrite IH]; reflexivity. Qed.

Lemma stripLastSlash_append (base : string) :
  stripLastSlash (base ++ "/") = base.
Proof.
  induction base as [| c rest IH]; [reflexivity |].
  change ((String c rest) ++ "/") with (String c (rest ++ "/")).
  simpl. destruct (rest ++ "/") eqn:E.
  - exfalso. exact (append_slash_not_empty rest E).
  - rewrite IH. reflexivity.
Qed.

Lemma endsWithSlash_append (s : string) :
  endsWithSlash s = true -> exists base, s = base ++ "/".
Proof.
  induction s as [| c rest IH]; [discriminate |].
  simpl. destruct rest as [| c' rest'].
  - intros H. apply Ascii.eqb_eq in H. subst c. exists EmptyString. reflexivity.
  - intros H. destruct (IH H) as [base Hbase]. exists (String c base).
    simpl. rewrite <- Hbase. reflexivity.
Qed.

Lemma stripLastSlash_without_slash (s : string) :
  endsWithSlash s = false -> stripLastSlash s = s.
Proof.
  induction s as [| c rest IH]; [reflexivity |].
  simpl. destruct rest as [| c' rest'].
  - intros H. rewrite H. reflexivity.
  - intros H. rewrite (IH H). reflexivity.
Qed.

Lemma endsWithSlash_slash (base : string) : endsWithSlash (base ++ "/") = true.
Proof.
  induction base as [| c rest IH]; [reflexivity |].
  change ((String c rest) ++ "/") with (String c (rest ++ "/")).
  simpl. destruct (rest ++ "/") eqn:E.
  - exfalso. exact (append_slash_not_empty rest E).
  - exact IH.
Qed.

(** C10, as the code has it: the constructor validates the URL first
    ([assertBeeUrl], whose error it throws), and the instance it returns
    stores the URL with one trailing ['/'] removed: [base] for the input
    [base/], the input itself when it does not end with ['/'].  The stored
    URL is the [baseURL] of the requests, and it ends with ['/'], which an
    endpoint path that starts with ['/'] doubles, exactly when the input
    ended with two. *)
Theorem constructor_strips_last_slash (W : World) (u : string)
  (options : option BeeOptions) :
  (forall e, assertBeeUrl W u = Throw e -> constructor W u options = Throw e) /\
  (forall bee, constructor W u options = Return bee ->
     assertBeeUrl W u = Return tt /\
     url bee = stripLastSlash u /\
     baseURL (requestOptions bee) = Some (url bee) /\
     (forall base, u = base ++ "/" -> url bee = base) /\
     (endsWithSlash u = false -> url bee = u) /\
     (endsWithSlash (url bee) = true <-> exists base, u = base ++ "//")).
Proof.
  unfold constructor. split.
  - intros e He. rewrite He. reflexivity.
  - intros bee Hbee.
    destruct (assertBeeUrl W u) as [[] | e]; [| discriminate Hbee].
    simpl in Hbee.
    assert (Hurl : url bee = stripLastSlash u /\
                   baseURL (requestOptions bee) = Some (url bee)).
    { destruct options as [o |]; simpl in Hbee.
      - destruct (optSigner o) as [s |]; simpl in Hbee.
        + destruct (truthyArg s); simpl in Hbee.
          * destruct (makeSigner W s); simpl in Hbee;
              [| discriminate Hbee].
            injection Hbee as <-. split; reflexivity.
          * injection Hbee as <-. split; reflexivity.
        + injection Hbee as <-. split; reflexivity.
      - injection Hbee as <-. split; reflexivity. }
    destruct Hurl as [Hurl Hbase]. rewrite Hurl.
    repeat split.
    + rewrite <- Hurl. exact Hbase.
    + intros base ->. apply stripLastSlash_append.
    + apply stripLastSlash_without_slash.
    + intros Hends.
      destruct (endsWithSlash u) eqn:Hu.
      * destruct (endsWithSlash_append u Hu) as [base Hb]. subst u.
        rewrite stripLastSlash_append in Hends.
        destruct (endsWithSlash_append base Hends) as [base' Hb'].
        exists base'. subst base. rewrite string_append_assoc.
        reflexivity.
      * rewrite (stripLastSlash_without_slash u Hu) in Hends. congruence.
    + intros [base ->].
      change "//" with ("/" ++ "/"). rewrite <- string_append_assoc.
      rewrite stripLastSlash_append. apply endsWithSlash_slash.
Qed.

Lemma constructor_strips_last_slash_witness :
  url exampleBee = "http://localhost:1633" /\
  constructor (world emptyFeed) "http://localhost:1633/" None =
  Return exampleBee.
Proof.
  assert (H : constructor (world emptyFeed) "http://localhost:1633/" None =
              Return exampleBee) by reflexivity.
  split; [| exact H].
  apply (proj1 (proj2 (proj2 (proj2 (proj2
           (constructor_strips_last_slash (world emptyFeed)
              "http://localhost:1633/" None) exampleBee H))))
           "http://localhost:1633").
  reflexivity.
Defined.

(** C10, as stated, fails: of the two slashes that end the input
    [http://localhost:1633//] the constructor removes one, and the endpoint
    path [/bytes] joined to the stored URL has a double slash. *)
Lemma constructor_keeps_a_slash_of_two :
  constructor (world emptyFeed) "http://localhost:1633//" None =
  Return {| url := "http://localhost:1633/";
            signer := None;
            requestOptions := {|
              baseURL := Some "http://localhost:1633/";
              timeout := Some TimeoutOff;
              headers := None; onRequest := None; adapter := None |} |} /\
  endsWithSlash "http://localhost:1633/" = true /\
  "http://localhost:1633/" ++ "/bytes" = "http://localhost:1633//bytes".
Proof. repeat split. Qed.

(** *** The chain check and the search for the latest update *)

Lemma settled_bindA_Return {A B} (m : Async A) (k : A -> Async B) (a : A) :
  settled m = Return a -> settled (bindA m k) = settled (k a).
Proof.
  destruct m as [l r]. simpl. intros ->. unfold bindA.
  destruct (k a). reflexivity.
Qed.

Lemma settled_bindA_Throw {A B} (m : Async A) (k : A -> Async B) (e : JsError) :
  settled m = Throw e -> settled (bindA m k) = Throw e.
Proof. destruct m as [l r]. simpl. intros ->. reflexivity. Qed.

Lemma bindA_probe {B} (feed : Feed) (i : N) (k : option Uint8Array -> Async B) :
  noTransportFailure feed ->
  bindA (probe feed i) k =
  (Fetch i :: calls (k (payloadAt feed i)), settled (k (payloadAt feed i))).
Proof.
  intros Hno. unfold probe, payloadAt, bindA.
  destruct (feed i) as [[|] payload | | e] eqn:E.
  - destruct (k (Some payload)); reflexivity.
  - destruct (k None); reflexivity.
  - destruct (k None); reflexivity.
  - exfalso. exact (Hno i e E).
Qed.

Lemma payloadAt_resolves (feed : Feed) (i : N) :
  resolves feed i = match payloadAt feed i with Some _ => true | None => false end.
Proof.
  unfold resolves, payloadAt. destruct (feed i) as [[|] payload | | e];
    reflexivity.
Qed.

Section ChainCheck.

Variable feed : Feed.
Hypothesis no_failure : noTransportFailure feed.

Lemma chainFrom_all (count : nat) : forall i,
  (forall j, i <= j < i + N.of_nat count -> resolves feed j = true) ->
  chainFrom feed i count = (map Fetch (indicesFrom i count), Return true).
Proof.
  induction count as [| k IH]; intros i Hall; [reflexivity |].
  cbn [chainFrom indicesFrom map].
  rewrite (bindA_probe feed i _ no_failure).
  assert (Hi : resolves feed i = true) by (apply Hall; lia).
  rewrite payloadAt_resolves in Hi.
  destruct (payloadAt feed i); [| discriminate Hi].
  rewrite IH; [reflexivity |].
  intros j Hj. apply Hall. lia.
Qed.

Lemma chainFrom_gap (count : nat) : forall i g,
  i <= g < i + N.of_nat count ->
  resolves feed g = false ->
  (forall j, i <= j < g -> resolves feed j = true) ->
  chainFrom feed i count =
  (map Fetch (indicesFrom i (S (N.to_nat (g - i)))), Return false).
Proof.
  induction count as [| k IH]; intros i g Hg Hgap Hbefore; [lia |].
  cbn [chainFrom]. rewrite (bindA_probe feed i _ no_failure).
  destruct (N.eq_dec g i) as [-> | Hne].
  - rewrite payloadAt_resolves in Hgap.
    destruct (payloadAt feed i); [discriminate Hgap |].
    rewrite N.sub_diag. reflexivity.
  - assert (Hi : resolves feed i = true) by (apply Hbefore; lia).
    rewrite payloadAt_resolves in Hi.
    destruct (payloadAt feed i); [| discriminate Hi].
    rewrite (IH (N.succ i) g); [| lia | exact Hgap |].
    + replace (N.to_nat (g - i)) with (S (N.to_nat (g - N.succ i))) by lia.
      reflexivity.
    + intros j Hj. apply Hbefore. lia.
Qed.

(** The least index up to [n] that does not resolve, if there is one. *)
Lemma least_gap (n : N) :
  (forall i, i <= n -> resolves feed i = true) \/
  (exists g, g <= n /\ resolves feed g = false /\
             forall j, j < g -> resolves feed j = true).
Proof.
  induction n as [| n IH] using N.peano_ind.
  - destruct (resolves feed 0) eqn:E.
    + left. intros i Hi. replace i with 0 by lia. exact E.
    + right. exists 0. repeat split; [lia | exact E | intros j Hj; lia].
  - destruct IH as [Hall | [g [Hg [Hgap Hbefore]]]].
    + destruct (resolves feed (N.succ n)) eqn:E.
      * left. intros i Hi.
        destruct (N.eq_dec i (N.succ n)) as [-> | Hne]; [exact E |].
        apply Hall. lia.
      * right. exists (N.succ n). repeat split; [lia | exact E |].
        intros j Hj. apply Hall. lia.
    + right. exists g. repeat split; [lia | exact Hgap | exact Hbefore].
Qed.

Lemma chainCheck_all (n : N) :
  (forall i, i <= n -> resolves feed i = true) ->
  chainCheck feed n = (map Fetch (indicesFrom 0 (S (N.to_nat n))), Return true).
Proof.
  intros Hall. apply chainFrom_all. intros j Hj. apply Hall. lia.
Qed.

Lemma chainCheck_gap (n g : N) :
  g <= n -> resolves feed g = false ->
  (forall j, j < g -> resolves feed j = true) ->
  chainCheck feed n = (map Fetch (indicesFrom 0 (S (N.to_nat g))), Return false).
Proof.
  intros Hg Hgap Hbefore. unfold chainCheck.
  rewrite (chainFrom_gap _ 0 g); [| lia | exact Hgap |].
  - rewrite N.sub_0_r. reflexivity.
  - intros j Hj. apply Hbefore. lia.
Qed.

End ChainCheck.

Lemma half_bounds (a : N) : 2 * (a / 2) <= a < 2 * (a / 2) + 2.
Proof.
  pose proof (N.div_mod a 2 ltac:(lia)) as Hdiv.
  pose proof (N.mod_upper_bound a 2 ltac:(lia)) as Hmod.
  generalize dependent (a / 2). generalize dependent (a mod 2).
  intros r Hmod q Hdiv. lia.
Qed.

Section ReadLatest.

Variable feed : Feed.
Hypothesis no_failure : noTransportFailure feed.

Lemma expSearch_returns (fuel : nat) : forall best p,
  exists r, settled (expSearch feed best p fuel) = Return r.
Proof.
  induction fuel as [| k IH]; intros best p; cbn [expSearch].
  - eexists. reflexivity.
  - rewrite (bindA_probe feed p _ no_failure). cbn [settled snd].
    destruct (payloadAt feed p) as [payload |].
    + apply IH.
    + eexists. reflexivity.
Qed.

Lemma binSearch_returns (fuel : nat) : forall best hi,
  exists r, settled (binSearch feed best hi fuel) = Return r.
Proof.
  induction fuel as [| k IH]; intros best hi; cbn [binSearch].
  - eexists. reflexivity.
  - destruct (hi - fst best <=? 1); [eexists; reflexivity |].
    rewrite (bindA_probe feed _ _ no_failure). cbn [settled snd].
    destruct (payloadAt feed ((fst best + hi) / 2)) as [payload |];
      apply IH.
Qed.

Lemma readLatest_not_found :
  resolves feed 0 = false ->
  readLatest feed = ([Fetch 0], Throw FeedNotFound).
Proof.
  intros H0. unfold readLatest. rewrite (bindA_probe feed 0 _ no_failure).
  rewrite payloadAt_resolves in H0.
  destruct (payloadAt feed 0); [discriminate H0 | reflexivity].
Qed.

Lemma readLatest_found :
  resolves feed 0 = true ->
  exists u, settled (readLatest feed) = Return u.
Proof.
  intros H0. unfold readLatest. rewrite (bindA_probe feed 0 _ no_failure).
  rewrite payloadAt_resolves in H0.
  destruct (payloadAt feed 0) as [payload0 |]; [| discriminate H0].
  cbn [settled snd].
  destruct (expSearch_returns INDEX_BITS (0, payload0) 1) as [bracket Hb].
  rewrite (settled_bindA_Return _ _ _ Hb).
  destruct (binSearch_returns INDEX_BITS (fst bracket) (snd bracket))
    as [latest Hl].
  rewrite (settled_bindA_Return _ _ _ Hl).
  eexists. reflexivity.
Qed.

End ReadLatest.

Section ReadLatestContiguous.

Variable feed : Feed.
Variable n : N.
Hypothesis exact : existsExactlyUpTo feed n.

Lemma exact_no_failure : noTransportFailure feed.
Proof.
  intros i e E. destruct exact as [Hin Hout].
  destruct (N.le_gt_cases i n) as [Hle | Hgt].
  - destruct (Hin i Hle) as [payload Hp]. congruence.
  - rewrite (Hout i Hgt) in E. discriminate E.
Qed.

Lemma exact_inside (i : N) :
  i <= n -> exists payload, payloadAt feed i = Some payload.
Proof.
  intros Hle. destruct exact as [Hin _]. destruct (Hin i Hle) as [payload Hp].
  exists payload. unfold payloadAt. rewrite Hp. reflexivity.
Qed.

Lemma exact_outside (i : N) : n < i -> payloadAt feed i = None.
Proof.
  intros Hgt. destruct exact as [_ Hout]. unfold payloadAt.
  rewrite (Hout i Hgt). reflexivity.
Qed.

(** The exponential search ends with a bracket around [n]: the last index
    that resolved is at most [n], the bound is beyond it, and the bracket is
    no wider than its lower end plus one. *)
Lemma expSearch_bracket (fuel : nat) : forall best p,
  fst best <= n -> fst best < p -> p <= 2 * fst best + 1 ->
  payloadAt feed (fst best) = Some (snd best) ->
  n < p * 2 ^ N.of_nat fuel ->
  exists best' hi,
    settled (expSearch feed best p fuel) = Return (best', hi) /\
    fst best' <= n < hi /\ hi <= 2 * fst best' + 1 /\
    payloadAt feed (fst best') = Some (snd best').
Proof.
  induction fuel as [| k IH]; intros best p Hlo Hlt Hwide Hpay Hfuel;
    cbn [expSearch].
  - exists best, p. simpl in Hfuel. repeat split; try assumption; lia.
  - rewrite (bindA_probe feed p _ exact_no_failure). cbn [settled snd].
    destruct (N.le_gt_cases p n) as [Hle | Hgt].
    + destruct (exact_inside p Hle) as [payload Hp]. rewrite Hp.
      apply IH; cbn [fst snd]; try lia; try assumption.
      rewrite Nat2N.inj_succ, N.pow_succ_r' in Hfuel. lia.
    + rewrite (exact_outside p Hgt).
      exists best, p. repeat split; try assumption; lia.
Qed.

(** The binary search closes a bracket around [n] on [n]. *)
Lemma binSearch_exact (fuel : nat) : forall best hi,
  fst best <= n < hi -> hi - fst best <= 2 ^ N.of_nat fuel ->
  payloadAt feed (fst best) = Some (snd best) ->
  exists payload,
    settled (binSearch feed best hi fuel) = Return (n, payload) /\
    payloadAt feed n = Some payload.
Proof.
  induction fuel as [| k IH]; intros [lo pl] hi Hn Hwide Hpay;
    cbn [fst snd] in *; cbn [binSearch fst].
  - simpl in Hwide. assert (lo = n) by lia. subst lo.
    exists pl. split; [reflexivity | assumption].
  - destruct (hi - lo <=? 1) eqn:Hclose.
    + apply N.leb_le in Hclose. assert (lo = n) by lia. subst lo.
      exists pl. split; [reflexivity | assumption].
    + apply N.leb_gt in Hclose.
      rewrite (bindA_probe feed _ _ exact_no_failure). cbn [settled snd].
      rewrite Nat2N.inj_succ, N.pow_succ_r' in Hwide.
      pose proof (half_bounds (lo + hi)) as Hhalf.
      set (mid := (lo + hi) / 2) in *. clearbody mid.
      destruct (N.le_gt_cases mid n) as [Hle | Hgt].
      * destruct (exact_inside _ Hle) as [payload Hp]. rewrite Hp.
        apply IH; cbn [fst snd]; [lia | lia | assumption].
      * rewrite (exact_outside _ Hgt).
        apply IH; cbn [fst snd]; [lia | lia | assumption].
Qed.

End ReadLatestContiguous.

(** *** readLatest through the feed reader *)

(** C6: the reader [makeFeedReader] returns for a Sequence feed, its
    [download] being the spec's [readLatest] over the feed: when the updates
    exist exactly at the indices [0..n] (so [n+1] is absent), the download
    resolves to the update at index [n]; when index 0 is absent it rejects
    with FeedNotFound, after the one lookup. *)
Theorem readLatest_highest_index (W : World) (this : Bee)
  (topic : Arg Topic) (owner : Arg EthAddress)
  (options : option BeeRequestOptions) (r : FeedReader) (feed : Feed) (n : N) :
  makeFeedReader W this sequence topic owner options = Return r ->
  download r = readLatest feed ->
  n < 2 ^ N.of_nat INDEX_BITS ->
  (existsExactlyUpTo feed n ->
   exists payload,
     settled (download r) =
       Return {| updatePayload := payload; feedIndex := n |} /\
     feed n = Found true payload) /\
  (feed 0 = NotFound -> download r = ([Fetch 0], Throw FeedNotFound)).
Proof.
  intros _ Hdownload Hrange. rewrite Hdownload. split.
  - intros Hexact. pose proof (exact_no_failure feed n Hexact) as Hno.
    unfold readLatest. rewrite (bindA_probe feed 0 _ Hno).
    destruct (exact_inside feed n Hexact 0 ltac:(lia)) as [payload0 H0].
    rewrite H0. cbn [settled snd].
    destruct (expSearch_bracket feed n Hexact INDEX_BITS (0, payload0) 1)
      as [best [hi [Hexp [Hbracket [Hwide Hpay]]]]];
      cbn [fst snd]; try lia; try assumption.
    rewrite (settled_bindA_Return _ _ _ Hexp). cbn [fst snd].
    destruct (binSearch_exact feed n Hexact INDEX_BITS best hi)
      as [payload [Hbin Hn]]; try assumption; try lia.
    rewrite (settled_bindA_Return _ _ _ Hbin). cbn [fst snd].
    exists payload. split; [reflexivity |].
    unfold payloadAt in Hn.
    destruct (feed n) as [[|] p | | e]; try discriminate Hn.
    injection Hn as ->. reflexivity.
  - intros H0. unfold readLatest, probe. rewrite H0. reflexivity.
Qed.

Lemma feedUpTo4_exact : existsExactlyUpTo feedUpTo4 4.
Proof.
  split; intros i Hi; unfold feedUpTo4.
  - apply N.leb_le in Hi. rewrite Hi. exists [x2a]. reflexivity.
  - apply N.leb_gt in Hi. rewrite Hi. reflexivity.
Defined.

Lemma readLatest_highest_index_witness :
  exists payload,
    settled (download (worldReader feedUpTo4 (requestOptions exampleBee)
                         sequence exampleTopic (bytesToHex exampleOwner))) =
      Return {| updatePayload := payload; feedIndex := 4 |} /\
    feedUpTo4 4 = Found true payload.
Proof.
  apply (proj1 (readLatest_highest_index (world feedUpTo4) exampleBee
                  (U8 exampleTopic) (U8 exampleOwner) None
                  (worldReader feedUpTo4 (requestOptions exampleBee)
                     sequence exampleTopic (bytesToHex exampleOwner))
                  feedUpTo4 4 eq_refl eq_refl eq_refl)).
  exact feedUpTo4_exact.
Defined.

(** *** The chain check of isFeedRetrievable *)

(** C1: for a Sequence feed and a target index [n], the reader and the
    verifier being the spec's over the feed and no lookup ending in a
    transport failure: [isFeedRetrievable] resolves to [true] exactly when
    every index from 0 up to and including [n] resolves and authenticates,
    and to [false] exactly when one of them is missing or invalid, the
    lookups stopping at the first such index.  (The target index 0 is falsy:
    the class answers it from the download of the latest update, which
    succeeds exactly when index 0 resolves.) *)
Theorem isFeedRetrievable_sequence_chain (W : World) (this : Bee)
  (owner : Arg EthAddress) (topic : Arg Topic)
  (options : option BeeRequestOptions) (a : EthAddress) (t : Topic)
  (feed : Feed) (n : N) :
  makeEthAddress W owner = Return a ->
  makeTopic W topic = Return t ->
  specFeed W this a t options feed ->
  noTransportFailure feed ->
  let verdict :=
    isFeedRetrievable W this sequence owner topic (Some (IndexNumber n))
      options in
  (settled verdict = Return true <->
   forall i, i <= n -> resolves feed i = true) /\
  (settled verdict = Return false <->
   exists i, i <= n /\ resolves feed i = false) /\
  (forall g, g <= n -> resolves feed g = false ->
             (forall j, j < g -> resolves feed j = true) ->
             verdict =
             (map Fetch (indicesFrom 0 (S (N.to_nat g))), Return false)).
Proof.
  intros Howner Htopic [[r [Hreader Hdownload]] Hchain] Hno verdict.
  assert (Hall : (forall i, i <= n -> resolves feed i = true) ->
                 settled verdict = Return true).
  { intros Hall. unfold verdict, isFeedRetrievable.
    rewrite Howner, bindA_sync_Return, Htopic, bindA_sync_Return.
    cbn [truthyIndex isSequence negb].
    destruct (N.eqb_spec n 0) as [-> | Hn]; cbn [negb].
    - rewrite latestIsRetrievable_cases, Hreader, bindA_sync_Return, Hdownload.
      destruct (readLatest_found feed Hno (Hall 0 ltac:(lia))) as [u Hu].
      rewrite Hu. reflexivity.
    - rewrite Hchain, (chainCheck_all feed Hno n Hall). reflexivity. }
  assert (Hgap : forall g, g <= n -> resolves feed g = false ->
                   (forall j, j < g -> resolves feed j = true) ->
                   verdict =
                   (map Fetch (indicesFrom 0 (S (N.to_nat g))), Return false)).
  { intros g Hg Hmiss Hbefore. unfold verdict, isFeedRetrievable.
    rewrite Howner, bindA_sync_Return, Htopic, bindA_sync_Return.
    cbn [truthyIndex isSequence negb].
    destruct (N.eqb_spec n 0) as [-> | Hn]; cbn [negb].
    - assert (g = 0) by lia. subst g.
      rewrite latestIsRetrievable_cases, Hreader, bindA_sync_Return, Hdownload.
      rewrite (readLatest_not_found feed Hno Hmiss). reflexivity.
    - rewrite Hchain. apply (chainCheck_gap feed Hno n g Hg Hmiss Hbefore). }
  split; [| split]; [| | exact Hgap].
  - split; [| exact Hall].
    intros Htrue.
    destruct (least_gap feed n) as [Hyes | [g [Hg [Hmiss Hbefore]]]];
      [exact Hyes |].
    rewrite (Hgap g Hg Hmiss Hbefore) in Htrue. discriminate Htrue.
  - split.
    + intros Hfalse.
      destruct (least_gap feed n) as [Hyes | [g [Hg [Hmiss Hbefore]]]].
      * rewrite (Hall Hyes) in Hfalse. discriminate Hfalse.
      * exists g. split; assumption.
    + intros [i [Hi Hmiss]].
      destruct (least_gap feed n) as [Hyes | [g [Hg [Hmiss' Hbefore]]]].
      * rewrite (Hyes i Hi) in Hmiss. discriminate Hmiss.
      * rewrite (Hgap g Hg Hmiss' Hbefore). reflexivity.
Qed.

Lemma feedWithGapAt2_no_failure : noTransportFailure feedWithGapAt2.
Proof.
  intros i e. unfold feedWithGapAt2, feedUpTo4.
  destruct (i =? 2); [discriminate |].
  destruct (i <=? 4); discriminate.
Defined.

Lemma feedWithGapAt2_spec :
  specFeed (world feedWithGapAt2) exampleBee exampleOwner exampleTopic None
    feedWithGapAt2.
Proof.
  split.
  - eexists. split; reflexivity.
  - intros n. apply bindA_sync_Return.
Defined.

Lemma isFeedRetrievable_sequence_chain_witness :
  isFeedRetrievable (world feedWithGapAt2) exampleBee sequence
    (U8 exampleOwner) (U8 exampleTopic) (Some (IndexNumber 4)) None =
  ([Fetch 0; Fetch 1; Fetch 2], Return false).
Proof.
  apply (proj2 (proj2 (isFeedRetrievable_sequence_chain (world feedWithGapAt2)
                  exampleBee (U8 exampleOwner) (U8 exampleTopic) None
                  exampleOwner exampleTopic feedWithGapAt2 4
                  eq_refl eq_refl feedWithGapAt2_spec
                  feedWithGapAt2_no_failure)) 2).
  - discriminate.
  - reflexivity.
  - intros j Hj.
    destruct j as [| [p | p |]]; try reflexivity;
      destruct p; vm_compute in Hj; discriminate Hj.
Defined.

(* ================================================================== *)
(** ** Further properties of the class *)

(** *** isFeedRetrievable: a falsy target index *)

(** X1: the target index 0 and the empty string are no target index: the
    call behaves as the one without an index, for a feed of either type
    (for an Epoch feed no error is raised), and whatever request options
    are passed, the download of the latest update does not use them. *)
Theorem isFeedRetrievable_falsy_index (W : World) (this : Bee)
  (type : FeedType) (owner : Arg EthAddress) (topic : Arg Topic)
  (options options' : option BeeRequestOptions) :
  isFeedRetrievable W this type owner topic (Some (IndexNumber 0)) options =
  isFeedRetrievable W this type owner topic None options' /\
  isFeedRetrievable W this type owner topic (Some (IndexString EmptyString))
    options =
  isFeedRetrievable W this type owner topic None options'.
Proof. split; reflexivity. Qed.

(** *** getJsonFeed: the error of a signer that cannot be made *)

(** X2: when [getJsonFeed] is given a signer and no address, and
    [makeSigner] throws on that signer, the method rejects without a call;
    a [BeeError] of [makeSigner] is replaced by the [BeeError] "Either
    address, signer or default signer has to be specified!", any other
    error is thrown as it is. *)
Theorem getJsonFeed_signer_error (W : World) (this : Bee) (topic : string)
  (o : JsonFeedOptions) (s : Arg Signer) (e : JsError) :
  assertRequestOptions W (Some (jsonRequest o)) "JsonFeedOptions" = Return tt ->
  jsonSigner o = Some s -> truthyArg s = true ->
  truthyOpt (jsonAddress o) = false ->
  makeSigner W s = Throw e ->
  getJsonFeed W this topic (Some o) =
  ([], Throw (if instanceofBeeError e
              then BeeError "Either address, signer or default signer has to be specified!"
              else e)).
Proof.
  intros Hassert Hs Hts Ha Hmake. unfold getJsonFeed. simpl option_map.
  rewrite Hassert, bindA_sync_Return.
  assert (Haddr : jsonFeedAddress W this (Some o) =
                  Throw (if instanceofBeeError e
                         then BeeError "Either address, signer or default signer has to be specified!"
                         else e)).
  { unfold jsonFeedAddress, resolvedSignerAddress, signerOf, addressOf.
    rewrite Ha, andb_false_r, Hs, (resolveSigner_call_site W this s Hts), Hmake.
    simpl tryCatchC.
    destruct (jsonAddress o) as [a |].
    - simpl in Ha. rewrite Ha. destruct (instanceofBeeError e); reflexivity.
    - destruct (instanceofBeeError e); reflexivity. }
  rewrite Haddr. reflexivity.
Qed.

Lemma getJsonFeed_signer_error_witness :
  getJsonFeed (world feedUpTo4) exampleBeeWithSigner "news"
    (Some {| jsonRequest := noOptions; jsonAddress := None;
             jsonSigner := Some (Str "zz"); jsonType := None |}) =
  ([], Throw (TypeError "invalid hex string for private key")).
Proof.
  apply (getJsonFeed_signer_error (world feedUpTo4) exampleBeeWithSigner "news"
           {| jsonRequest := noOptions; jsonAddress := None;
              jsonSigner := Some (Str "zz"); jsonType := None |}
           (Str "zz") (TypeError "invalid hex string for private key"));
    reflexivity.
Defined.

(** *** The default signer of an instance *)

(** X3: an instance the constructor returns has a default signer exactly
    when the options carry a (truthy) signer: it is the signer [makeSigner]
    makes of it, and a method called without a signer resolves to it; with
    no signer in the options such a call fails with a [BeeError]. *)
Theorem constructor_default_signer (W : World) (u : string)
  (options : option BeeOptions) (bee : Bee) :
  constructor W u options = Return bee ->
  (forall o s, options = Some o -> optSigner o = Some s ->
               truthyArg s = true ->
               exists made, makeSigner W s = Return made /\
                            signer bee = Some made /\
                            resolveSigner W bee None = Return made) /\
  (truthyOpt (match options with Some o => optSigner o | None => None end)
   = false ->
   signer bee = None /\
   exists e, resolveSigner W bee None = Throw e /\
             instanceofBeeError e = true).
Proof.
  unfold constructor. intros Hbee.
  destruct (assertBeeUrl W u) as [[] | e0]; [| discriminate Hbee].
  simpl in Hbee. split.
  - intros o s -> Hs Hts. simpl in Hbee. rewrite Hs, Hts in Hbee.
    simpl in Hbee.
    destruct (makeSigner W s) as [made | e1]; [| discriminate Hbee].
    simpl in Hbee. injection Hbee as <-.
    exists made. repeat split.
  - intros Hfalsy.
    assert (Hnone : signer bee = None).
    { destruct options as [o |]; simpl in Hbee, Hfalsy.
      - destruct (optSigner o) as [s |]; simpl in Hbee, Hfalsy.
        + rewrite Hfalsy in Hbee. simpl in Hbee.
          injection Hbee as <-. reflexivity.
        + injection Hbee as <-. reflexivity.
      - injection Hbee as <-. reflexivity. }
    split; [exact Hnone |].
    unfold resolveSigner, defaultSigner. rewrite Hnone.
    eexists. split; reflexivity.
Qed.

Lemma constructor_default_signer_witness :
  exists made,
    makeSigner (world emptyFeed) (Canon exampleSigner) = Return made /\
    signer exampleBeeWithSigner = Some made /\
    resolveSigner (world emptyFeed) exampleBeeWithSigner None = Return made.
Proof.
  apply (proj1 (constructor_default_signer (world emptyFeed)
                  "http://localhost:1633"
                  (Some {| optSigner := Some (Canon exampleSigner);
                           optTimeout := None; optHeaders := None;
                           optOnRequest := None; optAdapter := None |})
                  exampleBeeWithSigner eq_refl)
           {| optSigner := Some (Canon exampleSigner);
              optTimeout := None; optHeaders := None;
              optOnRequest := None; optAdapter := None |}
           (Canon exampleSigner)); reflexivity.
Defined.

(** *** checkConnection and isConnected *)

(** X4: [isConnected] makes the calls [checkConnection] makes, and
    resolves to [true] exactly when [checkConnection] resolves; when it
    resolves to [false], [checkConnection] rejects. *)
Theorem isConnected_checkConnection (W : World) (this : Bee)
  (options : option BeeRequestOptions) :
  calls (isConnected W this options) = calls (checkConnection W this options) /\
  (settled (isConnected W this options) = Return true <->
   settled (checkConnection W this options) = Return tt) /\
  (settled (isConnected W this options) = Return false ->
   exists e, settled (checkConnection W this options) = Throw e).
Proof.
  unfold isConnected, checkConnection.
  destruct (assertRequestOptions W options "PostageBatchOptions") as [[] | e].
  - rewrite !bindA_sync_Return.
    destruct (status_checkConnection W (getRequestOptionsForCall W this options))
      as [l [[] | e]]; simpl.
    + rewrite app_nil_r. repeat split; intros; try reflexivity.
      discriminate.
    + rewrite app_nil_r. repeat split; intros; try discriminate.
      exists e. reflexivity.
  - simpl. repeat split; intros; discriminate.
Qed.

Lemma isConnected_checkConnection_witness :
  settled (checkConnection (world emptyFeed) exampleBee None) = Return tt.
Proof.
  apply (proj1 (proj1 (proj2 (isConnected_checkConnection (world emptyFeed)
                                exampleBee None)))).
  reflexivity.
Defined.

(** *** Single owner chunks *)

(** X5: the writer [makeSOCWriter] returns reads where it writes: its
    reader is the one of the address of the resolved signer, whose hex form
    is its [owner], and its [upload] signs with that signer. *)
Theorem makeSOCWriter_reads_own_address (W : World) (this : Bee)
  (s : option (Arg Signer)) (options : option BeeRequestOptions)
  (w : SOCWriter) :
  makeSOCWriter W this s options = Return w ->
  exists made a h,
    resolveSigner W this s = Return made /\
    makeEthAddress W (Canon (signerAddress made)) = Return a /\
    makeHexEthAddress W (Canon a) = Return h /\
    makeSOCReader W this (Canon (signerAddress made)) options =
      Return (socReader w) /\
    socOwner (socReader w) = h /\
    socDownload (socReader w) =
      downloadSingleOwnerChunk W (getRequestOptionsForCall W this options) a /\
    socUpload w =
      uploadSingleOwnerChunkData W (getRequestOptionsForCall W this options)
        made.
Proof.
  unfold makeSOCWriter. intros Hw.
  destruct (assertRequestOptions W options "RequestOptions") as [[] | e0] eqn:Ha;
    [| discriminate Hw].
  simpl in Hw.
  destruct (resolveSigner W this s) as [made | e1]; [| discriminate Hw].
  simpl in Hw.
  destruct (makeSOCReader W this (Canon (signerAddress made)) options)
    as [r | e2] eqn:Hr; [| discriminate Hw].
  simpl in Hw. injection Hw as <-. simpl.
  unfold makeSOCReader in Hr. rewrite Ha in Hr. simpl in Hr.
  destruct (makeEthAddress W (Canon (signerAddress made))) as [a | e3] eqn:Hea;
    [| discriminate Hr].
  simpl in Hr.
  destruct (makeHexEthAddress W (Canon a)) as [h | e4] eqn:Hh;
    [| discriminate Hr].
  simpl in Hr. injection Hr as <-.
  exists made, a, h. repeat split; try reflexivity; try assumption.
  unfold makeSOCReader. rewrite Ha. simpl. rewrite Hea. simpl.
  rewrite Hh. reflexivity.
Qed.

Lemma makeSOCWriter_reads_own_address_witness :
  exists w made,
    makeSOCWriter (world emptyFeed) exampleBeeWithSigner None None = Return w /\
    resolveSigner (world emptyFeed) exampleBeeWithSigner None = Return made /\
    socOwner (socReader w) = bytesToHex (signerAddress made).
Proof.
  eexists.
  destruct (makeSOCWriter_reads_own_address (world emptyFeed)
              exampleBeeWithSigner None None _ eq_refl)
    as [made [a [h [H1 [H2 [H3 [H4 [H5 _]]]]]]]].
  exists made. split; [reflexivity |]. split; [exact H1 |].
  rewrite H5. vm_compute in H1. injection H1 as <-.
  vm_compute in H2. injection H2 as <-.
  vm_compute in H3. injection H3 as <-. reflexivity.
Defined.

(** *** setJsonFeed and getJsonFeed meet on one feed *)

(** X6: called with the same topic string and the same options (a signer
    or the default signer, no address), [setJsonFeed] writes with the
    writer of the feed (type, topic, signer) and [getJsonFeed] reads with
    the reader of (type, topic, address of that signer): the same type, the
    same canonical topic, and the owner that signs. *)
Theorem jsonFeed_same_feed (W : World) (this : Bee) (batch : BatchId)
  (topic : string) (data : AnyJson) (o : JsonFeedOptions)
  (ro : option BeeRequestOptions) (made : Signer) (t : Topic)
  (h : HexEthAddress) :
  assertRequestOptions W (Some (jsonRequest o)) "JsonFeedOptions" = Return tt ->
  assertRequestOptions W (Some (jsonRequest o)) "RequestOptions" = Return tt ->
  assertRequestOptions W ro "RequestOptions" = Return tt ->
  assertBatchId W batch = Return tt ->
  assertFeedType W (feedTypeOf W (Some o)) = Return tt ->
  makeTopic W (Canon (makeFeedTopic W topic)) = Return t ->
  truthyOpt (jsonAddress o) = false ->
  resolveSigner W this (jsonSigner o) = Return made ->
  makeHexEthAddress W (Canon (signerAddress made)) = Return h ->
  setJsonFeed W this batch topic data (Some o) ro =
    setJsonData W this
      (feed_makeFeedWriter W (getRequestOptionsForCall W this ro)
         (feedTypeOf W (Some o)) t made)
      batch data (Some o) ro /\
  getJsonFeed W this topic (Some o) =
    getJsonData W this
      (feed_makeFeedReader W
         (getRequestOptionsForCall W this (Some (jsonRequest o)))
         (feedTypeOf W (Some o)) t h).
Proof.
  intros Hjson Hreq Hro Hbatch Htype Htopic Haddr Hsigner Hhex. split.
  - unfold setJsonFeed. simpl option_map.
    rewrite Hjson, bindA_sync_Return, Hbatch, bindA_sync_Return.
    unfold makeFeedWriter, signerOf.
    rewrite Hro, Htype. simpl bindC. rewrite Htopic. simpl bindC.
    rewrite Hsigner. simpl bindC. rewrite bindA_sync_Return. reflexivity.
  - unfold getJsonFeed. simpl option_map.
    rewrite Hjson, bindA_sync_Return.
    assert (Ha : jsonFeedAddress W this (Some o) = Return (signerAddress made)).
    { unfold jsonFeedAddress, resolvedSignerAddress, signerOf, addressOf.
      rewrite Haddr, andb_false_r, Hsigner. simpl.
      destruct (jsonAddress o) as [a |]; [| reflexivity].
      simpl in Haddr. rewrite Haddr. reflexivity. }
    rewrite Ha, bindA_sync_Return.
    unfold makeFeedReader. rewrite Hreq, Htype. simpl bindC.
    rewrite Htopic. simpl bindC. rewrite Hhex. simpl bindC.
    rewrite bindA_sync_Return. reflexivity.
Qed.

Lemma jsonFeed_same_feed_witness :
  readerTopic
    (writerReader
       (feed_makeFeedWriter (world feedUpTo4) (requestOptions exampleBee)
          sequence (worldTopicFromString "news") exampleSigner)) =
  readerTopic
    (feed_makeFeedReader (world feedUpTo4) (requestOptions exampleBee)
       sequence (worldTopicFromString "news")
       (bytesToHex (signerAddress exampleSigner))) /\
  getJsonFeed (world feedUpTo4) exampleBeeWithSigner "news"
    (Some {| jsonRequest := noOptions; jsonAddress := None;
             jsonSigner := None; jsonType := None |}) =
  getJsonData (world feedUpTo4) exampleBeeWithSigner
    (feed_makeFeedReader (world feedUpTo4)
       (getRequestOptionsForCall (world feedUpTo4) exampleBeeWithSigner
          (Some noOptions))
       sequence (worldTopicFromString "news")
       (bytesToHex (signerAddress exampleSigner))).
Proof.
  split; [reflexivity |].
  apply (proj2 (jsonFeed_same_feed (world feedUpTo4) exampleBeeWithSigner
                  exampleBatchId "news" "{}"
                  {| jsonRequest := noOptions; jsonAddress := None;
                     jsonSigner := None; jsonType := None |}
                  None exampleSigner (worldTopicFromString "news")
                  (bytesToHex (signerAddress exampleSigner))
                  eq_refl eq_refl eq_refl eq_refl eq_refl eq_refl eq_refl
                  eq_refl eq_refl)).
Defined.

(** *** The module [bytes] *)

Lemma bindA_pair_Return {A B} (l : list Call) (a : A) (k : A -> Async B) :
  bindA (l, Return a) k = ((l ++ calls (k a))%list, settled (k a)).
Proof. unfold bindA. destruct (k a). reflexivity. Qed.

Lemma bindA_pair_Throw {A B} (l : list Call) (e : JsError) (k : A -> Async B) :
  bindA (l, Throw e) k = (l, Throw e).
Proof. reflexivity. Qed.

Lemma getProperty_setProperty (k k' v : string) (o : JsObject) :
  getProperty k (setProperty k' v o) =
  if String.eqb k k' then Some v else getProperty k o.
Proof.
  induction o as [| [k1 v1] rest IH]; simpl.
  - reflexivity.
  - destruct (String.eqb k' k1) eqn:E1; simpl.
    + apply String.eqb_eq in E1. subst k1.
      destruct (String.eqb k k'); reflexivity.
    + rewrite IH. destruct (String.eqb k k1) eqn:E2; [| reflexivity].
      apply String.eqb_eq in E2. subst k1.
      rewrite String.eqb_sym, E1. reflexivity.
Qed.

Lemma getProperty_app (k : string) (a b : JsObject) :
  getProperty k (a ++ b)%list =
  match getProperty k a with
  | Some v => Some v
  | None => getProperty k b
  end.
Proof.
  induction a as [| [k1 v1] rest IH]; simpl; [reflexivity |].
  destruct (String.eqb k k1); [reflexivity | exact IH].
Qed.

(** In [{ ...base, ...over }] a property has the value [over] assigns to it
    last, and the value of [base] when [over] does not assign it. *)
Lemma getProperty_spread (k : string) (over : JsObject) : forall base,
  getProperty k (spread base over) =
  match lastProperty k over with
  | Some v => Some v
  | None => getProperty k base
  end.
Proof.
  unfold spread, lastProperty.
  induction over as [| [k1 v1] rest IH]; intros base; simpl; [reflexivity |].
  rewrite IH, getProperty_app, getProperty_setProperty. simpl.
  destruct (getProperty k (rev rest)); [reflexivity |].
  destruct (String.eqb k k1); reflexivity.
Qed.

(** X7: the request of [upload] carries the data as given, posted to
    [bytes]; every header [extractUploadHeaders] sets reaches it, and the
    content type is [application/octet-stream] unless
    [extractUploadHeaders] sets one, which then replaces it. *)
Theorem upload_request (A : Api) (data : DataArg) (batch : BatchId)
  (options : option UploadOptions) :
  let config := uploadConfig A data batch options in
  let extracted := extractUploadHeaders A batch options in
  configUrl config = "bytes" /\
  configMethod config = Some "post" /\
  configData config = Some data /\
  exists sent,
    configHeaders config = Some sent /\
    (forall k v, lastProperty k extracted = Some v ->
                 getProperty k sent = Some v) /\
    (lastProperty "content-type" extracted = None ->
     getProperty "content-type" sent = Some "application/octet-stream") /\
    (forall k, String.eqb k "content-type" = false ->
               lastProperty k extracted = None ->
               getProperty k sent = None).
Proof.
  simpl. repeat split. eexists. split; [reflexivity |].
  repeat split.
  - intros k v Hk. rewrite getProperty_spread, Hk. reflexivity.
  - intros Hnone. rewrite getProperty_spread, Hnone. reflexivity.
  - intros k Hk Hnone. rewrite getProperty_spread, Hnone. simpl.
    rewrite Hk. reflexivity.
Qed.

Lemma upload_request_witness :
  exists sent,
    configHeaders (uploadConfig api (DataString "hello") exampleBatchId None)
    = Some sent /\
    getProperty "swarm-postage-batch-id" sent = Some exampleBatchId /\
    getProperty "content-type" sent = Some "application/octet-stream".
Proof.
  destruct (upload_request api (DataString "hello") exampleBatchId None)
    as [_ [_ [_ [sent [Hsent [Hset [Hdefault _]]]]]]].
  exists sent. split; [exact Hsent |]. split.
  - apply Hset. reflexivity.
  - apply Hdefault. reflexivity.
Defined.

(** X8: [upload] makes the one request and nothing else; an error of the
    request is its error; the reference it resolves to is the one of the
    response, with no tag when the response has no [swarm-tag] header or an
    empty one, and the tag [makeTagUid] reads from the header otherwise,
    whose error rejects the upload. *)
Theorem upload_result (A : Api) (ro : BeeRequestOptions) (data : DataArg)
  (batch : BatchId) (options : option UploadOptions) :
  let sent := http_reference A ro (uploadConfig A data batch options) in
  let result := bytes_upload A ro data batch options in
  calls result = calls sent /\
  (forall e, settled sent = Throw e -> settled result = Throw e) /\
  (forall response,
      settled sent = Return response ->
      (getProperty "swarm-tag" (responseHeaders response) = None \/
       getProperty "swarm-tag" (responseHeaders response) = Some EmptyString ->
       settled result =
       Return {| reference := responseData response; tagUid := None |}) /\
      (forall header,
          getProperty "swarm-tag" (responseHeaders response) = Some header ->
          header <> EmptyString ->
          settled result =
          match makeTagUid A (TagString header) with
          | Return uid =>
              Return {| reference := responseData response;
                        tagUid := Some uid |}
          | Throw e => Throw e
          end)).
Proof.
  intros sent result. unfold result, bytes_upload. fold sent.
  destruct sent as [l [response | e]].
  - rewrite bindA_pair_Return. cbn [calls settled fst snd].
    split; [| split].
    + destruct (tagUidOf A (responseHeaders response));
        simpl; apply app_nil_r.
    + intros e H. discriminate H.
    + intros response' Hr. injection Hr as <-. unfold tagUidOf. split.
      * intros [Hnone | Hempty]; [rewrite Hnone | rewrite Hempty]; reflexivity.
      * intros header Hheader Hne. rewrite Hheader.
        assert (Ht : truthyString header = true).
        { unfold truthyString. destruct (String.eqb_spec header EmptyString);
            [contradiction | reflexivity]. }
        rewrite Ht. destruct (makeTagUid A (TagString header)); reflexivity.
  - rewrite bindA_pair_Throw. split; [reflexivity |]. split.
    + intros e' H. simpl in H. injection H as <-. reflexivity.
    + intros response H. discriminate H.
Qed.

Lemma upload_result_witness :
  settled (bytes_upload api noOptions (DataString "hello") exampleBatchId None)
  = Return {| reference := exampleReference; tagUid := Some 7 |}.
Proof.
  apply (proj2 (proj2 (proj2 (upload_result api noOptions (DataString "hello")
                                exampleBatchId None))
                  {| responseData := exampleReference;
                     responseHeaders := [("swarm-tag", "7")] |} eq_refl)
           "7"); [reflexivity | discriminate].
Defined.

(** *** uploadData and downloadData *)

(** X9: [uploadData] asserts the batch id, then the data, then the
    options, and the first assertion that fails rejects the call before any
    request; when all pass, the call is the [upload] of the module [bytes]
    with the data, the batch id and the options as given, under the request
    options of the instance merged with those of the call. *)
Theorem uploadData_validates_then_uploads (W : World) (A : Api) (this : Bee)
  (batch : BatchId) (data : DataArg) (options : option UploadOptions)
  (ro : option BeeRequestOptions) :
  (forall e, assertBatchId W batch = Throw e ->
             uploadData A W this batch data options ro = ([], Throw e)) /\
  (assertBatchId W batch = Return tt ->
   (forall e, assertData A data = Throw e ->
              uploadData A W this batch data options ro = ([], Throw e)) /\
   (assertData A data = Return tt ->
    (forall o e, options = Some o -> assertUploadOptions W o = Throw e ->
                 uploadData A W this batch data options ro = ([], Throw e)) /\
    ((forall o, options = Some o -> assertUploadOptions W o = Return tt) ->
     uploadData A W this batch data options ro =
     bytes_upload A (getRequestOptionsForCall W this ro) data batch options))).
Proof.
  unfold uploadData. split.
  - intros e He. rewrite He. reflexivity.
  - intros Hbatch. rewrite Hbatch, bindA_sync_Return. split.
    + intros e He. rewrite He. reflexivity.
    + intros Hdata. rewrite Hdata, bindA_sync_Return. split.
      * intros o e -> He. rewrite He. reflexivity.
      * intros Hopts. destruct options as [o |].
        -- rewrite (Hopts o eq_refl), bindA_sync_Return. reflexivity.
        -- rewrite bindA_sync_Return. reflexivity.
Qed.

Lemma uploadData_validates_then_uploads_witness :
  uploadData api (world emptyFeed) exampleBee exampleBatchId
    (DataString "hello") None None =
  ([Request "POST bytes"],
   Return {| reference := exampleReference; tagUid := Some 7 |}) /\
  uploadData api (world emptyFeed) exampleBee "short" (DataString "hello")
    None None =
  ([], Throw (TypeError "BatchId not valid hex string of length 64")).
Proof.
  split.
  - rewrite (proj2 (proj2 (proj2 (uploadData_validates_then_uploads
               (world emptyFeed) api exampleBee exampleBatchId
               (DataString "hello") None None) eq_refl) eq_refl)).
    + reflexivity.
    + intros o Ho. discriminate Ho.
  - apply (proj1 (uploadData_validates_then_uploads (world emptyFeed) api
                    exampleBee "short" (DataString "hello") None None)).
    reflexivity.
Defined.

(** X10: [downloadData] and [downloadReadableData] assert the request
    options, then the reference, and reject before any request when one
    fails; otherwise each makes one request of bytes/<reference>, with no
    method, body or headers of its own, asking for an array buffer, or a
    stream; it resolves to the data of the response (wrapped with the
    helpers for the array buffer) and rejects with the error of the
    request. *)
Theorem downloadData_request (W : World) (A : Api) (this : Bee)
  (reference0 : string) (options : option BeeRequestOptions) :
  let config responseType := {|
    configUrl := "bytes/" ++ reference0;
    configMethod := None;
    configResponseType := responseType;
    configData := None;
    configHeaders := None
  |} in
  let ro := getRequestOptionsForCall W this options in
  (forall e, assertRequestOptions W options "RequestOptions" = Throw e ->
             downloadData A W this reference0 options = ([], Throw e) /\
             downloadReadableData A W this reference0 options = ([], Throw e)) /\
  (assertRequestOptions W options "RequestOptions" = Return tt ->
   (forall e, assertReferenceOrEns A reference0 = Throw e ->
              downloadData A W this reference0 options = ([], Throw e) /\
              downloadReadableData A W this reference0 options = ([], Throw e)) /\
   (assertReferenceOrEns A reference0 = Return tt ->
    downloadData A W this reference0 options =
      (calls (http_arraybuffer A ro (config "arraybuffer")),
       match settled (http_arraybuffer A ro (config "arraybuffer")) with
       | Return response =>
           Return (wrapBytesWithHelpers A (responseData response))
       | Throw e => Throw e
       end) /\
    downloadReadableData A W this reference0 options =
      (calls (http_stream A ro (config "stream")),
       match settled (http_stream A ro (config "stream")) with
       | Return response => Return (responseData response)
       | Throw e => Throw e
       end))).
Proof.
  intros config ro.
  unfold downloadData, downloadReadableData, bytes_download,
    bytes_downloadReadable, endpoint.
  fold ro. split.
  - intros e He. rewrite He. split; reflexivity.
  - intros Hro. rewrite Hro, !bindA_sync_Return. split.
    + intros e He. rewrite He. split; reflexivity.
    + intros Href. rewrite Href, !bindA_sync_Return.
      change ("bytes" ++ "/" ++ reference0) with ("bytes/" ++ reference0).
      fold (config "arraybuffer"). fold (config "stream"). split.
      * destruct (http_arraybuffer A ro (config "arraybuffer"))
          as [l [response | e]]; simpl; rewrite ?app_nil_r; reflexivity.
      * destruct (http_stream A ro (config "stream"))
          as [l [response | e]]; simpl; rewrite ?app_nil_r; reflexivity.
Qed.

Lemma downloadData_request_witness :
  downloadData api (world emptyFeed) exampleBee exampleReference None =
  ([Request ("GET bytes/" ++ exampleReference)], Return [x2a]).
Proof.
  rewrite (proj1 (proj2 (proj2 (downloadData_request (world emptyFeed) api
                                  exampleBee exampleReference None) eq_refl)
                    eq_refl)).
  reflexivity.
Defined.

(** *** uploadFile *)

Lemma uploadFile_validated (W : World) (A : Api) (this : Bee)
  (batch : BatchId) (data : FileArg) (name : option string)
  (options : option FileUploadOptions) (ro : option BeeRequestOptions)
  (rest : Async UploadResultWithCid) :
  assertBatchId W batch = Return tt ->
  assertFileData A data = Return tt ->
  (forall o, options = Some o -> assertFileUploadOptions A o = Return tt) ->
  bindA (sync (assertBatchId W batch))
    (fun _ =>
       bindA (sync (assertFileData A data))
         (fun _ =>
            bindA (sync (match options with
                         | Some o => assertFileUploadOptions A o
                         | None => Return tt
                         end))
              (fun _ => rest))) = rest.
Proof.
  intros Hbatch Hdata Hopts.
  rewrite Hbatch, bindA_sync_Return, Hdata, bindA_sync_Return.
  destruct options as [o |].
  - rewrite (Hopts o eq_refl), bindA_sync_Return. reflexivity.
  - rewrite bindA_sync_Return. reflexivity.
Qed.

Lemma bindA_resolve_map {A B} (m : Async A) (f : A -> B) :
  bindA m (fun a => resolve (f a)) =
  (calls m, match settled m with
            | Return a => Return (f a)
            | Throw e => Throw e
            end).
Proof.
  destruct m as [l [a | e]]; simpl; rewrite ?app_nil_r; reflexivity.
Qed.

(** X11: a [File] is uploaded under the name given, when one is given
    (even the empty one), and under its own name otherwise; with the
    content type of the options, when they have one, and with its own type
    otherwise; the other options are passed as they are.  Its bytes are
    read first, and a failure to read them makes no upload. *)
Theorem uploadFile_of_file (W : World) (A : Api) (this : Bee)
  (batch : BatchId) (f : JsFile) (name : option string)
  (options : option FileUploadOptions) (ro : option BeeRequestOptions) :
  assertBatchId W batch = Return tt ->
  assertFileData A (FileOfBrowser f) = Return tt ->
  (forall o, options = Some o -> assertFileUploadOptions A o = Return tt) ->
  let sentOptions := fileOptionsOf (fileType f) options in
  let sentName := match name with Some n => n | None => fileName f end in
  contentType sentOptions =
    Some (match options with
          | Some o => match contentType o with
                      | Some given => given
                      | None => fileType f
                      end
          | None => fileType f
          end) /\
  (forall o, options = Some o ->
             fileUpload sentOptions = fileUpload o /\
             size sentOptions = size o) /\
  (forall l e, fileArrayBuffer A f = (l, Throw e) ->
               uploadFile A W this batch (FileOfBrowser f) name options ro =
               (l, Throw e)) /\
  (forall l content,
      fileArrayBuffer A f = (l, Return content) ->
      let sent :=
        bzz_uploadFile A (getRequestOptionsForCall W this ro)
          (PayloadBytes content) batch (Some sentName) (Some sentOptions) in
      uploadFile A W this batch (FileOfBrowser f) name options ro =
      ((l ++ calls sent)%list,
       match settled sent with
       | Return result => Return (addCidConversionFunction result MANIFEST)
       | Throw e => Throw e
       end)).
Proof.
  intros Hbatch Hdata Hopts sentOptions sentName.
  split; [| split; [| split]].
  - unfold sentOptions, fileOptionsOf.
    destruct options as [o |]; [| reflexivity].
    simpl. destruct (contentType o); reflexivity.
  - intros o ->. split; reflexivity.
  - intros l e Hread. unfold uploadFile.
    rewrite (uploadFile_validated W A this batch _ name options ro _
               Hbatch Hdata Hopts).
    simpl. rewrite Hread. reflexivity.
  - intros l content Hread sent. unfold uploadFile.
    rewrite (uploadFile_validated W A this batch _ name options ro _
               Hbatch Hdata Hopts).
    simpl. rewrite Hread, bindA_pair_Return.
    fold sentName. fold sentOptions. fold sent.
    rewrite bindA_resolve_map. reflexivity.
Qed.

Lemma uploadFile_of_file_witness :
  uploadFile api (world emptyFeed) exampleBee exampleBatchId
    (FileOfBrowser {| fileName := "a.txt"; fileType := "text/plain" |})
    None None None =
  ([Request "POST /bzz"],
   Return (addCidConversionFunction
             {| reference := exampleReference; tagUid := Some 7 |} MANIFEST)).
Proof.
  rewrite (proj2 (proj2 (proj2 (uploadFile_of_file (world emptyFeed) api
             exampleBee exampleBatchId
             {| fileName := "a.txt"; fileType := "text/plain" |}
             None None None eq_refl eq_refl
             (fun o (H : None = Some o) =>
                match H in _ = x return
                      match x with Some _ => _ | None => True end
                with eq_refl => I end))))
             [] [x2a] eq_refl).
  reflexivity.
Defined.

(** X12: a stream uploaded with a tag (not 0) and no size (none, or 0): once
    the upload has resolved, the tag is updated with the reference the
    upload returned, under the request options of the instance, not those
    of the call; the result is the one of the upload when the update
    resolves, and the error of the update, the upload being done, when it
    rejects.  When the upload rejects no update is made. *)
Theorem uploadFile_stream_updates_tag (W : World) (A : Api) (this : Bee)
  (batch : BatchId) (stream : ReadableStream) (name : option string)
  (o : FileUploadOptions) (ro : option BeeRequestOptions) (t : N) :
  assertBatchId W batch = Return tt ->
  assertFileData A (FileReadable stream) = Return tt ->
  assertFileUploadOptions A o = Return tt ->
  tag (fileUpload o) = Some t -> t <> 0 ->
  truthyNumber (size o) = false ->
  let sent :=
    bzz_uploadFile A (getRequestOptionsForCall W this ro)
      (PayloadReadable stream) batch name (Some o) in
  (forall l e, sent = (l, Throw e) ->
               uploadFile A W this batch (FileReadable stream) name (Some o) ro
               = (l, Throw e)) /\
  (forall l result uid,
      sent = (l, Return result) ->
      assertReference A (reference result) = Return tt ->
      assertRequestOptions W None "RequestOptions" = Return tt ->
      makeTagUid A (TagNumber t) = Return uid ->
      let update := tag_updateTag A (requestOptions this) uid
                      (reference result) in
      uploadFile A W this batch (FileReadable stream) name (Some o) ro =
      ((l ++ calls update)%list,
       match settled update with
       | Return _ => Return (addCidConversionFunction result MANIFEST)
       | Throw e => Throw e
       end)).
Proof.
  intros Hbatch Hdata Hopts Htag Ht Hsize sent.
  assert (Hcond : tagOfStream (FileReadable stream) (Some o) = Some t).
  { unfold tagOfStream. rewrite Htag, Hsize.
    destruct (N.eqb_spec t 0); [contradiction | reflexivity]. }
  assert (Hrun : uploadFile A W this batch (FileReadable stream) name (Some o) ro
                 = bindA sent
                     (fun result =>
                        bindA (updateTag A W this (TagNumber t)
                                 (reference result) None)
                          (fun _ => resolve
                                      (addCidConversionFunction result MANIFEST)))).
  { unfold uploadFile.
    rewrite (uploadFile_validated W A this batch _ name (Some o) ro _
               Hbatch Hdata).
    - simpl fileOrPayload. cbv iota. rewrite Hcond. reflexivity.
    - intros o' Ho'. injection Ho' as <-. exact Hopts. }
  rewrite Hrun. split.
  - intros l e ->. reflexivity.
  - intros l result uid -> Href Hro Huid update.
    rewrite bindA_pair_Return. unfold updateTag.
    rewrite Href, bindA_sync_Return, Hro, bindA_sync_Return, Huid,
      bindA_sync_Return.
    simpl getRequestOptionsForCall. fold update.
    rewrite bindA_resolve_map. reflexivity.
Qed.

Lemma uploadFile_stream_updates_tag_witness :
  uploadFile api (world emptyFeed) exampleBee exampleBatchId
    (FileReadable [[x2a]]) (Some "a.bin") (Some taggedStreamOptions)
    (Some negativeTimeout) =
  ([Request "POST /bzz"; Request "PATCH /tags/7"],
   Return (addCidConversionFunction
             {| reference := exampleReference; tagUid := Some 7 |} MANIFEST)).
Proof.
  rewrite (proj2 (uploadFile_stream_updates_tag (world emptyFeed) api
             exampleBee exampleBatchId [[x2a]] (Some "a.bin")
             taggedStreamOptions (Some negativeTimeout) 7
             eq_refl eq_refl eq_refl eq_refl
             (fun H : 7 = 0 => match H in _ = x return
                                 match x with 0 => False | _ => True end
                               with eq_refl => I end)
             eq_refl)
             [Request "POST /bzz"]
             {| reference := exampleReference; tagUid := Some 7 |} 7
             eq_refl eq_refl eq_refl eq_refl).
  reflexivity.
Defined.

(** X13: in every other case of data that is no [File] (no stream, no
    options, a tag that is absent or 0, or a size that is not 0)
    [uploadFile] makes the one upload, with the data, the name and the
    options as given, and no update of a tag: it settles as the upload
    does. *)
Theorem uploadFile_plain (W : World) (A : Api) (this : Bee)
  (batch : BatchId) (data : FileArg) (payload : FilePayload)
  (name : option string) (options : option FileUploadOptions)
  (ro : option BeeRequestOptions) :
  assertBatchId W batch = Return tt ->
  assertFileData A data = Return tt ->
  (forall o, options = Some o -> assertFileUploadOptions A o = Return tt) ->
  fileOrPayload data = inr payload ->
  (forall stream, data <> FileReadable stream) \/
  options = None \/
  (exists o, options = Some o /\ truthyNumber (tag (fileUpload o)) = false) \/
  (exists o, options = Some o /\ truthyNumber (size o) = true) ->
  let sent :=
    bzz_uploadFile A (getRequestOptionsForCall W this ro) payload batch name
      options in
  uploadFile A W this batch data name options ro =
  (calls sent,
   match settled sent with
   | Return result => Return (addCidConversionFunction result MANIFEST)
   | Throw e => Throw e
   end).
Proof.
  intros Hbatch Hdata Hopts Hpayload Hcase sent.
  assert (Hcond : tagOfStream data options = None).
  { unfold tagOfStream.
    destruct Hcase as [Hns | [-> | [[o [-> Htag]] | [o [-> Hsize]]]]].
    - destruct data; try reflexivity.
      exfalso. exact (Hns stream eq_refl).
    - destruct data; reflexivity.
    - destruct data; try reflexivity.
      unfold truthyNumber in Htag.
      destruct (tag (fileUpload o)) as [t |]; [| reflexivity].
      destruct (t =? 0); [reflexivity | discriminate Htag].
    - destruct data; try reflexivity.
      destruct (tag (fileUpload o)) as [t |]; [| reflexivity].
      rewrite Hsize, andb_false_r. reflexivity. }
  unfold uploadFile.
  rewrite (uploadFile_validated W A this batch _ name options ro _
             Hbatch Hdata Hopts).
  rewrite Hpayload, Hcond. fold sent. apply bindA_resolve_map.
Qed.

Lemma uploadFile_plain_witness :
  uploadFile api (world emptyFeed) exampleBee exampleBatchId
    (FileReadable [[x2a]]) None (Some zeroTagOptions) None =
  ([Request "POST /bzz"],
   Return (addCidConversionFunction
             {| reference := exampleReference; tagUid := Some 7 |} MANIFEST)).
Proof.
  rewrite (uploadFile_plain (world emptyFeed) api exampleBee exampleBatchId
             (FileReadable [[x2a]]) (PayloadReadable [[x2a]]) None
             (Some zeroTagOptions) None eq_refl eq_refl
             (fun o _ => eq_refl) eq_refl
             (or_intror (or_intror (or_introl
                (ex_intro _ zeroTagOptions (conj eq_refl eq_refl)))))).
  reflexivity.
Defined.

(** *** pssSubscribe *)

Section PssProperties.

Variable A : Api.
Variable pss_subscribe : string -> string -> WebSocket.
Context {H : Type}.
Variable handler : PssMessageHandler H.

Lemma cancel_cancelled (s : PssSubscription H) : cancelled (cancel s) = true.
Proof. unfold cancel. destruct (cancelled s) eqn:E; [exact E | reflexivity]. Qed.

Lemma cancel_socket (s : PssSubscription H) : socket (cancel s) = socket s.
Proof. unfold cancel. destruct (cancelled s); reflexivity. Qed.

Lemma cancel_handed (s : PssSubscription H) : handed (cancel s) = handed s.
Proof. unfold cancel. destruct (cancelled s); reflexivity. Qed.

Lemma cancel_handlerState (s : PssSubscription H) :
  handlerState (cancel s) = handlerState s.
Proof. unfold cancel. destruct (cancelled s); reflexivity. Qed.

Lemma cancel_closedOnce (s : PssSubscription H) :
  closedOnce s -> closedOnce (cancel s).
Proof.
  unfold closedOnce, cancel. destruct (cancelled s) eqn:E; simpl.
  - rewrite E. trivial.
  - intros ->. reflexivity.
Qed.

Lemma hand_closedOnce (what : Handed) (reaction : H * bool)
  (s : PssSubscription H) :
  closedOnce s -> closedOnce (hand what reaction s).
Proof.
  intros Hs. unfold hand. destruct (snd reaction).
  - apply cancel_closedOnce. exact Hs.
  - exact Hs.
Qed.

Lemma hand_socket (what : Handed) (reaction : H * bool)
  (s : PssSubscription H) :
  socket (hand what reaction s) = socket s.
Proof.
  unfold hand. destruct (snd reaction); [rewrite cancel_socket |]; reflexivity.
Qed.

Lemma hand_cancelled (what : Handed) (reaction : H * bool)
  (s : PssSubscription H) :
  cancelled s = true -> cancelled (hand what reaction s) = true.
Proof.
  intros Hs. unfold hand. destruct (snd reaction);
    [apply cancel_cancelled | exact Hs].
Qed.

Lemma hand_handed (what : Handed) (reaction : H * bool)
  (s : PssSubscription H) :
  handed (hand what reaction s) = (handed s ++ [what])%list.
Proof.
  unfold hand. destruct (snd reaction); [rewrite cancel_handed |]; reflexivity.
Qed.

Lemma pssStep_keeps (s : PssSubscription H) (ev : PssEvent) :
  closedOnce s ->
  closedOnce (pssStep A handler s ev) /\
  socket (pssStep A handler s ev) = socket s /\
  (cancelled s = true -> cancelled (pssStep A handler s ev) = true).
Proof.
  intros Hs. destruct ev as [data | message |]; simpl.
  - unfold wsOnMessage. destruct (0 <? byteLength data).
    + split; [apply hand_closedOnce, Hs |].
      split; [apply hand_socket | apply hand_cancelled].
    + repeat split; trivial.
  - unfold wsOnError. destruct (negb (cancelled s)).
    + split; [apply hand_closedOnce, Hs |].
      split; [apply hand_socket | apply hand_cancelled].
    + repeat split; trivial.
  - split; [apply cancel_closedOnce, Hs |].
    split; [apply cancel_socket | intros _; apply cancel_cancelled].
Qed.

Lemma pssRun_keeps (events : list PssEvent) : forall s,
  closedOnce s ->
  closedOnce (pssRun A handler s events) /\
  socket (pssRun A handler s events) = socket s /\
  (cancelled s = true -> cancelled (pssRun A handler s events) = true).
Proof.
  induction events as [| ev rest IH]; intros s Hs; simpl.
  - repeat split; trivial.
  - destruct (pssStep_keeps s ev Hs) as [Hc [Hsock Hmono]].
    destruct (IH _ Hc) as [Hc' [Hsock' Hmono']].
    split; [exact Hc' |]. split; [congruence |].
    intros Hcan. apply Hmono', Hmono, Hcan.
Qed.

(** X14: whatever the socket delivers and whenever the caller or the
    handler cancels, the socket of a subscription is not called while the
    subscription is live, and is closed by exactly one call when it is
    cancelled ([terminate] where the socket has it, [close] otherwise);
    a cancelled subscription stays cancelled, and cancelling it again does
    nothing. *)
Theorem pssSubscribe_closes_once (this : Bee) (topic : string) (h0 : H)
  (events more : list PssEvent) :
  let s := pssRun A handler (pssSubscribe pss_subscribe this topic h0) events in
  let s' := pssRun A handler s more in
  socketCalls s =
    (if cancelled s then [closing (pss_subscribe (url this) topic)] else []) /\
  (cancelled s = true ->
   cancelled s' = true /\ socketCalls s' = socketCalls s /\ cancel s = s) /\
  (In CallerCancels events -> cancelled s = true).
Proof.
  intros s s'.
  assert (Hinit : closedOnce (pssSubscribe pss_subscribe this topic h0))
    by reflexivity.
  destruct (pssRun_keeps events _ Hinit) as [Hc [Hsock _]].
  fold s in Hc, Hsock. simpl in Hsock.
  split; [| split].
  - unfold closedOnce in Hc. rewrite Hsock in Hc. exact Hc.
  - intros Hcan.
    destruct (pssRun_keeps more s Hc) as [Hc' [Hsock' Hmono]].
    fold s' in Hc', Hsock', Hmono.
    split; [exact (Hmono Hcan) |]. split.
    + unfold closedOnce in Hc, Hc'.
      rewrite Hc, Hc', (Hmono Hcan), Hcan, Hsock'. reflexivity.
    + unfold cancel. rewrite Hcan. reflexivity.
  - intros Hin. unfold s. clear s s' Hc Hsock.
    apply in_split in Hin. destruct Hin as [before [after ->]].
    unfold pssRun. rewrite fold_left_app. simpl.
    set (s0 := fold_left (pssStep A handler) before
                 (pssSubscribe pss_subscribe this topic h0)).
    assert (Hc0 : closedOnce s0)
      by (apply (pssRun_keeps before _ Hinit)).
    apply (pssRun_keeps after (cancel s0) (cancel_closedOnce s0 Hc0)).
    apply cancel_cancelled.
Qed.

Lemma pssStep_handed (s : PssSubscription H) (ev : PssEvent) :
  (Forall (fun h => forall d, h = HandedMessage d ->
                      exists data, d = wrapBytesWithHelpers A data /\
                                   data <> [])
          (handed s) ->
   Forall (fun h => forall d, h = HandedMessage d ->
                      exists data, d = wrapBytesWithHelpers A data /\
                                   data <> [])
          (handed (pssStep A handler s ev))) /\
  (cancelled s = true ->
   filter isHandedError (handed (pssStep A handler s ev)) =
   filter isHandedError (handed s)).
Proof.
  destruct ev as [data | message |]; simpl.
  - unfold wsOnMessage. destruct (0 <? byteLength data) eqn:E.
    + rewrite hand_handed. split.
      * intros Hall. apply Forall_app. split; [exact Hall |].
        constructor; [| constructor].
        intros d Hd. injection Hd as <-. exists data. split; [reflexivity |].
        intros ->. discriminate E.
      * intros _. rewrite filter_app. simpl. apply app_nil_r.
    + split; trivial.
  - unfold wsOnError. split.
    + destruct (negb (cancelled s)); [| trivial].
      rewrite hand_handed. intros Hall. apply Forall_app.
      split; [exact Hall |]. constructor; [| constructor].
      intros d Hd. discriminate Hd.
    + intros ->. reflexivity.
  - rewrite cancel_handed. split; trivial.
Qed.

(** X15: the handler is never handed an empty message, and never an error
    once the subscription is cancelled: the errors it has been handed are
    those from before the cancellation. *)
Theorem pssSubscribe_handed (this : Bee) (topic : string) (h0 : H)
  (events more : list PssEvent) :
  let s := pssRun A handler (pssSubscribe pss_subscribe this topic h0) events in
  let s' := pssRun A handler s more in
  (forall d, In (HandedMessage d) (handed s) ->
             exists data, d = wrapBytesWithHelpers A data /\ data <> []) /\
  (cancelled s = true ->
   filter isHandedError (handed s') = filter isHandedError (handed s)).
Proof.
  intros s s'. split.
  - assert (Hall : forall evs st,
               Forall (fun h => forall d, h = HandedMessage d ->
                          exists data, d = wrapBytesWithHelpers A data /\
                                       data <> []) (handed st) ->
               Forall (fun h => forall d, h = HandedMessage d ->
                          exists data, d = wrapBytesWithHelpers A data /\
                                       data <> [])
                      (handed (pssRun A handler st evs))).
    { induction evs as [| ev rest IH]; intros st Hst; simpl; [exact Hst |].
      apply IH. apply (proj1 (pssStep_handed st ev)). exact Hst. }
    intros d Hin.
    pose proof (Hall events (pssSubscribe pss_subscribe this topic h0)
                  (Forall_nil _)) as Hs.
    fold s in Hs. rewrite Forall_forall in Hs. exact (Hs _ Hin d eq_refl).
  - unfold s'. generalize s. clear s s'.
    induction more as [| ev rest IH]; intros s Hcan; [reflexivity |].
    change (pssRun A handler s (ev :: rest))
      with (pssRun A handler (pssStep A handler s ev) rest).
    assert (Hcan' : cancelled (pssStep A handler s ev) = true).
    { destruct ev as [data | message |]; simpl.
      - unfold wsOnMessage. destruct (0 <? byteLength data);
          [apply hand_cancelled |]; exact Hcan.
      - unfold wsOnError. rewrite Hcan. exact Hcan.
      - apply cancel_cancelled. }
    rewrite (IH _ Hcan').
    apply (proj2 (pssStep_handed s ev)). exact Hcan.
Qed.

End PssProperties.

Lemma pssSubscribe_closes_once_witness :
  cancelled (pssRun api countingHandler
               (pssSubscribe nodeSocket exampleBee "chat" 0)
               [SocketMessage [x2a]; CallerCancels]) = true /\
  socketCalls (pssRun api countingHandler
                 (pssSubscribe nodeSocket exampleBee "chat" 0)
                 [SocketMessage [x2a]; CallerCancels; CallerCancels;
                  SocketError "late"]) = [Terminate].
Proof.
  pose proof (pssSubscribe_closes_once api nodeSocket countingHandler
                exampleBee "chat" 0 [SocketMessage [x2a]; CallerCancels]
                [CallerCancels; SocketError "late"]) as [_ [Hstay Hcancel]].
  assert (Hc : cancelled (pssRun api countingHandler
                            (pssSubscribe nodeSocket exampleBee "chat" 0)
                            [SocketMessage [x2a]; CallerCancels]) = true).
  { apply Hcancel. right. left. reflexivity. }
  split; [exact Hc |].
  destruct (Hstay Hc) as [_ [Hcalls _]]. exact Hcalls.
Defined.

Lemma pssSubscribe_handed_witness :
  filter isHandedError
    (handed (pssRun api countingHandler
               (pssSubscribe nodeSocket exampleBee "chat" 0)
               [SocketError "first"; SocketError "second";
                SocketMessage [x2a]])) =
  [HandedError (BeeError "first")].
Proof.
  apply (proj2 (pssSubscribe_handed api nodeSocket countingHandler exampleBee
                  "chat" 0 [SocketError "first"]
                  [SocketError "second"; SocketMessage [x2a]])).
  reflexivity.
Defined.

(** *** pssReceive *)

Section PssReceiveProperties.

Variable A : Api.
Variable pss_subscribe : string -> string -> WebSocket.

Lemma clearTimeout_promise (r : Receiving) :
  promise (clearTimeout r) = promise r.
Proof. unfold clearTimeout. destruct (timer r); reflexivity. Qed.

Lemma clearTimeout_not_pending (r : Receiving) :
  timer (clearTimeout r) <> Pending.
Proof. unfold clearTimeout. destruct (timer r) eqn:E; simpl; congruence. Qed.

Lemma settle_settled (outcome o : Settlement) (r : Receiving) :
  promise r = Some o -> settle outcome r = r.
Proof. intros Hr. unfold settle. rewrite Hr. reflexivity. Qed.

Lemma settle_pending (outcome : Settlement) (r : Receiving) :
  promise r = None ->
  settle outcome r = {| promise := Some outcome; timer := timer r |}.
Proof. intros Hr. unfold settle. rewrite Hr. reflexivity. Qed.

(** A settled promise keeps its settlement. *)
Lemma receiveStep_settled (s : PssSubscription Receiving) (ev : ReceiveEvent)
  (o : Settlement) :
  promise (handlerState s) = Some o ->
  promise (handlerState (receiveStep A s ev)) = Some o.
Proof.
  intros Hs. destruct ev as [data | message |]; simpl.
  - unfold wsOnMessage. destruct (0 <? byteLength data); [| exact Hs].
    unfold hand. simpl. rewrite cancel_handlerState. simpl.
    rewrite (settle_settled _ o); rewrite clearTimeout_promise; exact Hs.
  - unfold wsOnError. destruct (negb (cancelled s)); [| exact Hs].
    unfold hand. simpl. rewrite cancel_handlerState. simpl.
    rewrite (settle_settled _ o); rewrite clearTimeout_promise; exact Hs.
  - unfold onTimeout. destruct (timer (handlerState s)); try exact Hs.
    simpl. rewrite cancel_handlerState.
    rewrite (settle_settled _ o); simpl; exact Hs.
Qed.

Lemma receiveRun_settled (events : list ReceiveEvent) : forall s o,
  promise (handlerState s) = Some o ->
  promise (handlerState (receiveRun A s events)) = Some o.
Proof.
  induction events as [| ev rest IH]; intros s o Hs; [exact Hs |].
  change (receiveRun A s (ev :: rest))
    with (receiveRun A (receiveStep A s ev) rest).
  apply IH, receiveStep_settled, Hs.
Qed.

Lemma firstOutcome_without_timer (events : list ReceiveEvent) (e : JsError) :
  firstOutcome A false events <> Some (Rejected e).
Proof.
  induction events as [| [data | message |] rest IH]; simpl;
    try discriminate; try exact IH.
  destruct (0 <? byteLength data); [discriminate | exact IH].
Qed.

(** X16: the promise of [pssReceive] is settled by the first event that
    counts, and by nothing after it: it resolves to the first message that
    is not empty, rejects with the message text of the first error of the
    socket, or rejects with the [BeeError] "pssReceive timeout" when the
    timer fires first; the timer is set only for [timeoutMsec > 0], so with
    the default 0 the promise never rejects with an error object, and
    stays pending until a message or an error arrives. *)
Theorem pssReceive_first_outcome (this : Bee) (topic : string)
  (timeoutMsec : Z) (events : list ReceiveEvent) :
  promise (handlerState
             (receiveRun A (pssReceive pss_subscribe this topic timeoutMsec)
                events)) =
  firstOutcome A (0 <? timeoutMsec)%Z events /\
  ((timeoutMsec <= 0)%Z ->
   forall e,
     promise (handlerState
                (receiveRun A (pssReceive pss_subscribe this topic timeoutMsec)
                   events)) <> Some (Rejected e)).
Proof.
  assert (Hgen : forall evs s,
             promise (handlerState s) = None -> cancelled s = false ->
             timer (handlerState s) =
               (if (0 <? timeoutMsec)%Z then Pending else NoTimer) ->
             promise (handlerState (receiveRun A s evs)) =
             firstOutcome A (0 <? timeoutMsec)%Z evs).
  { induction evs as [| ev rest IH]; intros s Hp Hc Ht; [exact Hp |].
    change (receiveRun A s (ev :: rest))
      with (receiveRun A (receiveStep A s ev) rest).
    destruct ev as [data | message |]; simpl.
    - unfold wsOnMessage. destruct (0 <? byteLength data).
      + apply receiveRun_settled. unfold hand. simpl.
        rewrite cancel_handlerState. simpl.
        rewrite settle_pending; [reflexivity |].
        rewrite clearTimeout_promise. exact Hp.
      + apply IH; assumption.
    - apply receiveRun_settled. unfold wsOnError. rewrite Hc. simpl.
      unfold hand. simpl. rewrite cancel_handlerState. simpl.
      rewrite settle_pending; [reflexivity |].
      rewrite clearTimeout_promise. exact Hp.
    - unfold onTimeout. rewrite Ht. destruct (0 <? timeoutMsec)%Z.
      + apply receiveRun_settled. simpl. rewrite cancel_handlerState.
        rewrite settle_pending; [reflexivity | exact Hp].
      + apply IH; assumption. }
  assert (Hrun := Hgen events (pssReceive pss_subscribe this topic timeoutMsec)
                    eq_refl eq_refl eq_refl).
  split; [exact Hrun |].
  intros Hms e. rewrite Hrun.
  assert (Hoff : (0 <? timeoutMsec)%Z = false) by (apply Z.ltb_ge; exact Hms).
  rewrite Hoff. apply firstOutcome_without_timer.
Qed.

Lemma receiveStep_settledAndClosed (s : PssSubscription Receiving)
  (ev : ReceiveEvent) :
  settledAndClosed s ->
  settledAndClosed (receiveStep A s ev) /\
  socket (receiveStep A s ev) = socket s.
Proof.
  unfold settledAndClosed. intros Hs.
  assert (Hhandled : forall what outcome,
             settledAndClosed
               (hand what
                  (settle outcome (clearTimeout (handlerState s)), true) s) /\
             socket (hand what
                       (settle outcome (clearTimeout (handlerState s)), true) s)
             = socket s).
  { intros what outcome. split; [| apply hand_socket].
    unfold settledAndClosed, hand. simpl.
    rewrite cancel_handlerState, cancel_cancelled, cancel_socket. simpl.
    destruct (promise (handlerState s)) as [o |] eqn:Hp.
    - destruct Hs as [Hc [Hcalls Ht]].
      rewrite (settle_settled _ o)
        by (rewrite clearTimeout_promise; exact Hp).
      rewrite clearTimeout_promise, Hp.
      split; [reflexivity |]. split.
      + unfold cancel. simpl. rewrite Hc. simpl. exact Hcalls.
      + apply clearTimeout_not_pending.
    - destruct Hs as [Hc Hcalls].
      rewrite settle_pending by (rewrite clearTimeout_promise; exact Hp).
      simpl. split; [reflexivity |]. split.
      + unfold cancel. simpl. rewrite Hc. simpl. rewrite Hcalls. reflexivity.
      + apply clearTimeout_not_pending. }
  destruct ev as [data | message |]; simpl.
  - unfold wsOnMessage. destruct (0 <? byteLength data).
    + apply Hhandled.
    + split; [exact Hs | reflexivity].
  - unfold wsOnError. destruct (negb (cancelled s)).
    + apply Hhandled.
    + split; [exact Hs | reflexivity].
  - unfold onTimeout. destruct (timer (handlerState s)) eqn:Ht;
      try (split; [rewrite Ht; exact Hs | reflexivity]).
    simpl. rewrite cancel_handlerState, cancel_cancelled, cancel_socket.
    split; [| reflexivity].
    destruct (promise (handlerState s)) as [o |] eqn:Hp.
    + destruct Hs as [_ [_ Hnot]]. contradiction.
    + destruct Hs as [Hc Hcalls]. unfold settle. simpl.
      split; [reflexivity |]. split; [| discriminate].
      unfold cancel. rewrite Hc. simpl. rewrite Hcalls. reflexivity.
Qed.

(** X17: at every moment of a [pssReceive] the socket is open exactly
    while the promise is pending: no call is made on it before the promise
    settles, and when it settles (by a message, an error or the timer) the
    socket is closed by one call, never a second one, and the timer is
    pending no more. *)
Theorem pssReceive_closes_when_settled (this : Bee) (topic : string)
  (timeoutMsec : Z) (events : list ReceiveEvent) :
  let s := receiveRun A (pssReceive pss_subscribe this topic timeoutMsec)
             events in
  (promise (handlerState s) = None ->
   cancelled s = false /\ socketCalls s = []) /\
  (forall o, promise (handlerState s) = Some o ->
             cancelled s = true /\
             socketCalls s = [closing (pss_subscribe (url this) topic)] /\
             timer (handlerState s) <> Pending).
Proof.
  intros s.
  assert (Hgen : forall evs st,
             settledAndClosed st ->
             settledAndClosed (receiveRun A st evs) /\
             socket (receiveRun A st evs) = socket st).
  { induction evs as [| ev rest IH]; intros st Hst; [split; trivial |].
    change (receiveRun A st (ev :: rest))
      with (receiveRun A (receiveStep A st ev) rest).
    destruct (receiveStep_settledAndClosed st ev Hst) as [Hstep Hsock].
    destruct (IH _ Hstep) as [Hrun Hsock'].
    split; [exact Hrun | congruence]. }
  assert (Hinit : settledAndClosed
                    (pssReceive pss_subscribe this topic timeoutMsec))
    by (split; reflexivity).
  destruct (Hgen events _ Hinit) as [Hs Hsock]. fold s in Hs, Hsock.
  simpl in Hsock. unfold settledAndClosed in Hs. rewrite Hsock in Hs.
  split.
  - intros Hp. rewrite Hp in Hs. exact Hs.
  - intros o Hp. rewrite Hp in Hs. exact Hs.
Qed.

End PssReceiveProperties.

Lemma pssReceive_first_outcome_witness :
  promise (handlerState
             (receiveRun api (pssReceive nodeSocket exampleBee "chat" 0)
                [TimerFires; Arrives []; Fails "closed"; Arrives [x2a]])) =
    Some (RejectedWith "closed") /\
  ~ (exists e,
       promise (handlerState
                  (receiveRun api (pssReceive nodeSocket exampleBee "chat" 0)
                     [TimerFires; Arrives []; Fails "closed"; Arrives [x2a]]))
       = Some (Rejected e)).
Proof.
  split.
  - apply (proj1 (pssReceive_first_outcome api nodeSocket exampleBee "chat" 0
                    [TimerFires; Arrives []; Fails "closed"; Arrives [x2a]])).
  - intros [e He].
    apply (proj2 (pssReceive_first_outcome api nodeSocket exampleBee "chat" 0
                    [TimerFires; Arrives []; Fails "closed"; Arrives [x2a]])
             ltac:(discriminate) e He).
Defined.

Lemma pssReceive_closes_when_settled_witness :
  socketCalls
    (receiveRun api (pssReceive nodeSocket exampleBee "chat" 1000)
       [Arrives []; Arrives [x2a]; TimerFires; Fails "late"]) =
  [Terminate].
Proof.
  apply (proj2 (pssReceive_closes_when_settled api nodeSocket exampleBee
                  "chat" 1000
                  [Arrives []; Arrives [x2a]; TimerFires; Fails "late"])
           (Resolved [x2a])).
  reflexivity.
Defined.
